(** * toilet-go-where: the discovery and address services

    A shallow embedding of [src/services/geminiService.ts] (the functions
    [findToilets] and [reverseGeocode]) with the data types of
    [types.ts], followed by the properties of the specification that
    concern them.

    Conventions of the embedding:
    - a JavaScript [string] is a [string] of the Standard Library; text is
      taken to be ASCII, so [toLowerCase] maps [A-Z] to [a-z] and leaves
      every other character alone;
    - a JavaScript [number] holding a coordinate is an IEEE value
      ([spec_float]); identifiers and HTTP status codes, which are whole
      numbers, are [Z];
    - an optional property ([name?: string]) is an [option]; its absence
      ([None]) is JavaScript's [undefined];
    - [try]/[catch] is an explicit [Completion]; an [async] function returns
      a [Promise], either fulfilled with a value or rejected with an error;
    - [Map<number, string>] is a [gmap Z string]. *)

From Stdlib Require Import ZArith String Ascii List Bool Lia.
From Stdlib Require Import Floats.SpecFloat Numbers.DecimalString.
From Stdlib Require Import Numbers.DecimalPos Numbers.DecimalZ.
From stdpp Require Import gmap strings.

Local Open Scope string_scope.
Local Open Scope Z_scope.

(* ===================================================================== *)
(** ** The JavaScript operations the service relies on *)
(* ===================================================================== *)

Module JS.

(** [String.prototype.toLowerCase] on ASCII text: the letters [A] to [Z]
    are lowered and every other character is left as it is (JavaScript also
    lowers the capital letters outside ASCII). *)
Definition lower_ascii (c : ascii) : ascii :=
  let n := nat_of_ascii c in
  if ((65 <=? n)%nat && (n <=? 90)%nat)%bool then ascii_of_nat (n + 32) else c.

Fixpoint toLowerCase (s : string) : string :=
  match s with
  | EmptyString => EmptyString
  | String c r => String (lower_ascii c) (toLowerCase r)
  end.

(** [Array.prototype.join] on an array of strings. *)
Fixpoint join (sep : string) (parts : list string) : string :=
  match parts with
  | [] => ""
  | [p] => p
  | p :: rest => p +:+ sep +:+ join sep rest
  end.

(** Numbers: IEEE 754 values. *)
Definition number : Type := spec_float.

(** ToBoolean on a number: [0], [-0] and [NaN] are falsy. *)
Definition truthy_number (x : number) : bool :=
  match x with
  | S754_zero _ | S754_nan => false
  | S754_infinity _ | S754_finite _ _ _ => true
  end.

(** ToBoolean on a string: only the empty string is falsy. *)
Definition truthy_string (s : string) : bool :=
  match s with
  | EmptyString => false
  | String _ _ => true
  end.

(** ToBoolean on [string | undefined]. *)
Definition truthy (v : option string) : bool :=
  match v with
  | Some s => truthy_string s
  | None => false
  end.

(** The value of [v] where the source tests [v] for truthiness before it
    uses it: [Some s] exactly when [v] is a non-empty string. *)
Definition truthy_value (v : option string) : option string :=
  match v with
  | Some s => if truthy_string s then Some s else None
  | None => None
  end.

(** [v === lit] for [v : string | undefined] and a string literal. *)
Definition strict_eq (v : option string) (lit : string) : bool :=
  match v with
  | Some s => String.eqb s lit
  | None => false
  end.

(** [a || b] for [a : number | undefined] and [b : number]. *)
Definition or_number (a : option number) (b : number) : number :=
  match a with
  | Some x => if truthy_number x then x else b
  | None => b
  end.

(** [Number.prototype.toString] on a whole number. *)
Definition toString (n : Z) : string := NilZero.string_of_int (Z.to_int n).

(** [[...new Set(parts)]]: the values are added one by one, a value that
    the set already holds is not added again, and the set is read back in
    insertion order. *)
Definition Set_add (held : list string) (v : string) : list string :=
  if existsb (String.eqb v) held then held else (held ++ [v])%list.

Definition Set_from (parts : list string) : list string :=
  fold_left Set_add parts [].

(** An [Error] object, as far as the service and its callers look at it. *)
Record Error := { message : string }.

(** How a block of statements ends: with a value or with a thrown error. *)
Inductive Completion (A : Type) : Type :=
| Return (a : A)
| Throw (e : Error).
Arguments Return {A} a.
Arguments Throw {A} e.

Definition bind {A B} (c : Completion A) (k : A -> Completion B) : Completion B :=
  match c with
  | Return a => k a
  | Throw e => Throw e
  end.

(** The settled state of the promise an [async] function returns. *)
Inductive Promise (A : Type) : Type :=
| Fulfilled (a : A)
| Rejected (e : Error).
Arguments Fulfilled {A} a.
Arguments Rejected {A} e.

(** An HTTP response: [ok], [status] and what [response.json()] does
    (it yields the parsed body or rejects when the body is not JSON). *)
Record Response (A : Type) := {
  ok : bool;
  status : Z;
  json : Completion A
}.
Arguments ok {A} r.
Arguments status {A} r.
Arguments json {A} r.

End JS.

(** Sequencing of statements that may throw, in stdpp's monad notation. *)
#[global] Instance Completion_bind : MBind JS.Completion :=
  fun A B k c => JS.bind c k.
#[global] Instance Completion_ret : MRet JS.Completion := @JS.Return.

(* ===================================================================== *)
(** ** Data model ([types.ts] and the interface [OverpassElement]) *)
(* ===================================================================== *)

Record Location := { lat : JS.number; lng : JS.number }.

Record Toilet := {
  t_id : string;
  t_name : string;
  t_location : Location;
  t_address : string;
  t_fee : bool;
  t_wheelchair : bool;
  t_diaper : bool;
  t_housedIn : option string
}.

Inductive ElementType := node | way | relation.

Definition ElementType_eqb (a b : ElementType) : bool :=
  match a, b with
  | node, node | way, way | relation, relation => true
  | _, _ => false
  end.

#[global] Instance ElementType_eq_dec : EqDecision ElementType.
Proof. solve_decision. Defined.

Record Center := { center_lat : JS.number; center_lon : JS.number }.

Record Tags := {
  tag_name : option string;
  tag_addr_street : option string;
  tag_addr_housenumber : option string;
  tag_addr_postcode : option string;
  tag_addr_city : option string;
  tag_railway : option string;
  tag_toilets : option string;
  tag_amenity : option string;
  tag_fee : option string;
  tag_wheelchair : option string;
  tag_diaper : option string
}.

Record OverpassElement := {
  el_id : Z;
  el_type : ElementType;
  el_lat : JS.number;
  el_lon : JS.number;
  el_center : option Center;
  el_tags : option Tags;
  el_nodes : option (list Z)
}.

(** [element.tags?.key]: [undefined] when the element has no tags. *)
Definition tag (key : Tags -> option string) (e : OverpassElement) : option string :=
  match el_tags e with
  | Some t => key t
  | None => None
  end.

(** The body of the Overpass reply after [response.json()]: JSON [null]
    is [None]; otherwise an object whose [elements] may be missing. The
    elements have the shape the source declares for them (the interface
    [OverpassElement]); JSON of any other shape is outside this model. *)
Record OverpassData := { elements : option (list OverpassElement) }.

(* ===================================================================== *)
(** ** [findToilets] *)
(* ===================================================================== *)

(** [elements.filter(e => e.type === 'way' && e.tags?.name && e.nodes)];
    an array is truthy whatever its length. *)
Definition is_named_way (e : OverpassElement) : bool :=
  ElementType_eqb (el_type e) way
  && JS.truthy (tag tag_name e)
  && match el_nodes e with Some _ => true | None => false end.

(** [way.tags!.name!] and [way.nodes!]: the non-null assertions of the
    source are erased at run time; on the elements kept by [is_named_way]
    both values are there. *)
Definition way_name (w : OverpassElement) : string := default "" (tag tag_name w).
Definition way_nodes (w : OverpassElement) : list Z := default [] (el_nodes w).

(** The body of the inner loop:
    [if (!parentNameMap.has(nodeId)) parentNameMap.set(nodeId, name)]. *)
Definition set_if_absent (name : string) (m : gmap Z string) (nodeId : Z)
    : gmap Z string :=
  match m !! nodeId with
  | Some _ => m
  | None => <[nodeId := name]> m
  end.

Definition add_way (m : gmap Z string) (w : OverpassElement) : gmap Z string :=
  fold_left (set_if_absent (way_name w)) (way_nodes w) m.

Definition parentNameMap (els : list OverpassElement) : gmap Z string :=
  fold_left add_way (List.filter is_named_way els) ∅.

(** The predicate of [toiletElements]. *)
Definition is_toilet (e : OverpassElement) : bool :=
  JS.strict_eq (tag tag_amenity e) "toilets"
  || (JS.strict_eq (tag tag_railway e) "station"
      && JS.strict_eq (tag tag_toilets e) "yes").

(** [[street, housenumber, postcode, city].filter(Boolean)]. *)
Definition addressParts (e : OverpassElement) : list string :=
  omap JS.truthy_value
    [ tag tag_addr_street e; tag tag_addr_housenumber e;
      tag tag_addr_postcode e; tag tag_addr_city e ].

(** The [name] variable after the [if]/[else if]. *)
Definition element_name (e : OverpassElement) : string :=
  if JS.strict_eq (tag tag_railway e) "station" then
    match JS.truthy_value (tag tag_name e) with
    | Some n => n +:+ " station toilet"
    | None => "station toilet"
    end
  else
    match JS.truthy_value (tag tag_name e) with
    | Some n => n
    | None => "public toilet"
    end.

(** The [housedIn] variable. *)
Definition element_housedIn (pm : gmap Z string) (e : OverpassElement) : option string :=
  if ElementType_eqb (el_type e) node then pm !! el_id e else None.

(** The callback of [toiletElements.map]. *)
Definition toToilet (pm : gmap Z string) (e : OverpassElement) : Toilet :=
  let loc := {| lat := JS.or_number (center_lat <$> el_center e) (el_lat e);
                lng := JS.or_number (center_lon <$> el_center e) (el_lon e) |} in
  let parts := addressParts e in
  let name := element_name e in
  let housedIn := element_housedIn pm e in
  let address :=
    match parts with
    | [] => "address not available"
    | _ :: _ => JS.join ", " parts
    end in
  {| t_id := JS.toString (el_id e);
     t_name := JS.toLowerCase name;
     t_location := loc;
     t_address := JS.toLowerCase address;
     t_housedIn := JS.toLowerCase <$> housedIn;
     t_fee := JS.strict_eq (tag tag_fee e) "no" || JS.strict_eq (tag tag_fee e) "0";
     t_wheelchair := JS.strict_eq (tag tag_wheelchair e) "yes";
     t_diaper := JS.strict_eq (tag tag_diaper e) "yes" |}.

(** What [fetch] did: it resolved with a response or threw. *)
Definition Fetched (A : Type) : Type := JS.Completion (JS.Response A).

(** The statements inside [try]. *)
Definition findToilets_try (fetched : Fetched (option OverpassData))
    : JS.Completion (list Toilet) :=
  response ← fetched;
  if negb (JS.ok response) then
    JS.Throw {| JS.message :=
      "overpass api failed with status: " +:+ JS.toString (JS.status response) |}
  else
    data ← JS.json response;
    match data with
    | Some {| elements := Some els |} =>
        let pm := parentNameMap els in
        let toiletElements := List.filter is_toilet els in
        JS.Return (List.map (toToilet pm) toiletElements)
    | _ => JS.Return []
    end.

(** [findToilets]. The query URL is a function of the location, so the
    network is a function from the location to what [fetch] did. *)
Definition findToilets (fetch : Location -> Fetched (option OverpassData))
    (location : Location) : JS.Promise (list Toilet) :=
  match findToilets_try (fetch location) with
  | JS.Return ts => JS.Fulfilled ts
  | JS.Throw _ =>
      JS.Rejected {| JS.message := "failed to find nearby toilets from openstreetmap." |}
  end.

(* ===================================================================== *)
(** ** [reverseGeocode] *)
(* ===================================================================== *)

(** Modelled from the spec: the shape of the reverse-geocoding reply. The
    source leaves the parsed body untyped ([any]) and reads the fields
    below; the specification (section 6) gives their types: an optional
    [address] object with the fields [house_number], [road], [suburb],
    [city] and [postcode], an optional [display_name] string and an optional
    [error] string. *)
Record NominatimAddress := {
  house_number : option string;
  road : option string;
  suburb : option string;
  city : option string;
  postcode : option string
}.

Record NominatimData := {
  address : option NominatimAddress;
  display_name : option string;
  error : option string
}.

(** [if (v) parts.push(v)]. *)
Definition push_if_truthy (parts : list string) (v : option string) : list string :=
  match JS.truthy_value v with
  | Some s => parts ++ [s]
  | None => parts
  end.

(** [adr.city && adr.city.toLowerCase() === 'singapore']. *)
Definition is_singapore (adr : NominatimAddress) : bool :=
  match city adr with
  | Some c => JS.truthy_string c && String.eqb (JS.toLowerCase c) "singapore"
  | None => false
  end.

(** The array [parts] when the [if]/[else] on the city is over. *)
Definition address_parts (adr : NominatimAddress) : list string :=
  let parts := [] in
  let parts := push_if_truthy parts (house_number adr) in
  let parts := push_if_truthy parts (road adr) in
  let parts := push_if_truthy parts (suburb adr) in
  if is_singapore adr then
    match JS.truthy_value (postcode adr) with
    | Some p => parts ++ ["singapore " +:+ p]
    | None => parts ++ ["singapore"]
    end
  else
    let parts := push_if_truthy parts (city adr) in
    push_if_truthy parts (postcode adr).

(** The block guarded by [if (data && data.address)]: [Some s] when it
    returns [s], [None] when control falls through it. *)
Definition structured_address (data : option NominatimData) : option string :=
  match data with
  | Some d =>
      match address d with
      | Some adr =>
          let uniqueAddressParts := JS.Set_from (address_parts adr) in
          match uniqueAddressParts with
          | [] => None
          | _ :: _ => Some (JS.toLowerCase (JS.join ", " uniqueAddressParts))
          end
      | None => None
      end
  | None => None
  end.

Definition network_error_text : string := "unknown location (network error)".

(** The statements inside [try]. Reading [data.display_name] when [data]
    is [null] throws a [TypeError]. *)
Definition reverseGeocode_try (fetched : Fetched (option NominatimData))
    : JS.Completion string :=
  response ← fetched;
  if negb (JS.ok response) then
    JS.Throw {| JS.message :=
      "nominatim api failed with status: " +:+ JS.toString (JS.status response) |}
  else
    data ← JS.json response;
    match structured_address data with
    | Some s => JS.Return s
    | None =>
        match data with
        | None =>
            JS.Throw {| JS.message :=
              "Cannot read properties of null (reading 'display_name')" |}
        | Some d =>
            match JS.truthy_value (display_name d) with
            | Some n => JS.Return (JS.toLowerCase n)
            | None =>
                match JS.truthy_value (error d) with
                | Some err =>
                    JS.Return (JS.toLowerCase ("location lookup failed: " +:+ err))
                | None => JS.Return "could not determine address"
                end
            end
        end
    end.

(** [reverseGeocode]; the network is again a function of the location. *)
Definition reverseGeocode (fetch : Location -> Fetched (option NominatimData))
    (location : Location) : JS.Promise string :=
  match reverseGeocode_try (fetch location) with
  | JS.Return s => JS.Fulfilled s
  | JS.Throw _ => JS.Fulfilled network_error_text
  end.

(* ===================================================================== *)
(** ** The specification's vocabulary *)
(* ===================================================================== *)

Module Spec.

(** The upstream service answered the request for [loc] with a success
    status and a body that parses to [data]. *)
Definition answers {A : Type} (fetch : Location -> Fetched A)
    (loc : Location) (data : A) : Prop :=
  ∃ resp, fetch loc = JS.Return resp ∧ JS.ok resp = true
          ∧ JS.json resp = JS.Return data.

(** The ways in which the upstream query cannot be completed: the
    transport fails, the status is not a success, or the body of a
    successful response is not JSON. *)
Inductive UpstreamFailure {A : Type} : Fetched A -> Prop :=
| transport_failure e :
    UpstreamFailure (JS.Throw e)
| non_success_response resp :
    JS.ok resp = false -> UpstreamFailure (JS.Return resp)
| malformed_body resp e :
    JS.ok resp = true -> JS.json resp = JS.Throw e ->
    UpstreamFailure (JS.Return resp).

(** Toilet-bearing elements: amenity=toilets, or railway=station and
    toilets=yes. *)
Definition selected (e : OverpassElement) : Prop :=
  tag tag_amenity e = Some "toilets"
  ∨ (tag tag_railway e = Some "station" ∧ tag tag_toilets e = Some "yes").

#[global] Instance selected_dec e : Decision (selected e).
Proof. unfold selected. apply _. Defined.

(** The selected elements of a response, in upstream order. *)
Definition selected_elements (els : list OverpassElement) : list OverpassElement :=
  List.filter (fun e => bool_decide (selected e)) els.

(** [selection f els ts]: [ts] holds one record [f e] for each selected
    element [e] of [els] and nothing else, in the order of [els]. *)
Inductive selection (f : OverpassElement -> Toilet)
    : list OverpassElement -> list Toilet -> Prop :=
| selection_nil :
    selection f [] []
| selection_keep e els ts :
    selected e -> selection f els ts -> selection f (e :: els) (f e :: ts)
| selection_drop e els ts :
    ¬ selected e -> selection f els ts -> selection f (e :: els) ts.

(** A tag value that is there and is not the empty string. *)
Definition non_empty (v : option string) : option string :=
  match v with
  | Some "" => None
  | _ => v
  end.

(** Display name, with "a name tag exists" read as: the tag is there. *)
Definition display_name_claim (e : OverpassElement) : string :=
  if decide (tag tag_railway e = Some "station") then
    match tag tag_name e with
    | Some n => n +:+ " station toilet"
    | None => "station toilet"
    end
  else
    match tag tag_name e with
    | Some n => n
    | None => "public toilet"
    end.

(** Display name, with "a name tag exists" read as: the tag is there and
    is not empty. *)
Definition display_name_of (e : OverpassElement) : string :=
  if decide (tag tag_railway e = Some "station") then
    match non_empty (tag tag_name e) with
    | Some n => n +:+ " station toilet"
    | None => "station toilet"
    end
  else
    match non_empty (tag tag_name e) with
    | Some n => n
    | None => "public toilet"
    end.

(** The four address tags in the order street, house number, postcode,
    city. *)
Definition address_tags (e : OverpassElement) : list (option string) :=
  [ tag tag_addr_street e; tag tag_addr_housenumber e;
    tag tag_addr_postcode e; tag tag_addr_city e ].

Definition address_from (values : list string) : string :=
  match values with
  | [] => "address not available"
  | _ :: _ => JS.toLowerCase (JS.join ", " values)
  end.

(** Address, from the tag values that are there. *)
Definition address_claim (e : OverpassElement) : string :=
  address_from (omap id (address_tags e)).

(** Address, from the tag values that are there and are not empty. *)
Definition address_of (e : OverpassElement) : string :=
  address_from (omap non_empty (address_tags e)).

(** [w] is a way with a name tag and a member list that holds [i]. *)
Definition houses_claim (i : Z) (w : OverpassElement) : bool :=
  bool_decide (el_type w = way)
  && bool_decide (is_Some (tag tag_name w))
  && match el_nodes w with
     | Some members => bool_decide (i ∈ members)
     | None => false
     end.

(** [w] is a way with a non-empty name tag and a member list that holds
    [i]. *)
Definition houses (i : Z) (w : OverpassElement) : bool :=
  bool_decide (el_type w = way)
  && bool_decide (is_Some (non_empty (tag tag_name w)))
  && match el_nodes w with
     | Some members => bool_decide (i ∈ members)
     | None => false
     end.

(** The housed-in name of an element: for a node, the lower-cased name
    of the first element of the response, in upstream order, that
    houses it; nothing for a way or a relation. *)
Definition housedIn_by (houses : Z -> OverpassElement -> bool)
    (els : list OverpassElement) (e : OverpassElement) : option string :=
  match el_type e with
  | node =>
      match List.find (houses (el_id e)) els with
      | Some w => JS.toLowerCase <$> tag tag_name w
      | None => None
      end
  | way | relation => None
  end.

Definition housedIn_claim := housedIn_by houses_claim.
Definition housedIn_of := housedIn_by houses.

(** De-duplication that keeps the first occurrence of every value:
    [seen] holds the values met so far. *)
Fixpoint dedup_first (seen : gset string) (l : list string) : list string :=
  match l with
  | [] => []
  | x :: rest =>
      if decide (x ∈ seen) then dedup_first seen rest
      else x :: dedup_first ({[x]} ∪ seen) rest
  end.

(** The city field equals "singapore" up to case. *)
Definition city_is_singapore (adr : NominatimAddress) : Prop :=
  ∃ c, city adr = Some c ∧ JS.toLowerCase c = "singapore".

#[global] Instance city_is_singapore_dec adr : Decision (city_is_singapore adr).
Proof.
  unfold city_is_singapore.
  destruct (city adr) as [c|].
  - destruct (decide (JS.toLowerCase c = "singapore")) as [Hc|Hc].
    + left. exists c. split; [reflexivity | exact Hc].
    + right. intros (c' & Hc' & Hl). injection Hc' as <-. exact (Hc Hl).
  - right. intros (c' & Hc' & _). discriminate Hc'.
Defined.

(** The tokens of the structured address: house number, road, suburb;
    then "singapore <postcode>" (or "singapore" alone) when the city is
    Singapore, and city then postcode otherwise. *)
Definition address_tokens (adr : NominatimAddress) : list string :=
  omap non_empty [house_number adr; road adr; suburb adr]
  ++ (if decide (city_is_singapore adr) then
        match non_empty (postcode adr) with
        | Some p => ["singapore " +:+ p]
        | None => ["singapore"]
        end
      else omap non_empty [city adr; postcode adr]).

Definition assembled_address (adr : NominatimAddress) : string :=
  JS.toLowerCase (JS.join ", " (dedup_first ∅ (address_tokens adr))).

(** The structured tier: the assembled address of the reply's address
    object, when there is one and it yields at least one token. *)
Definition structured_assembly (d : NominatimData) : option string :=
  match address d with
  | Some adr =>
      match address_tokens adr with
      | [] => None
      | _ :: _ => Some (assembled_address adr)
      end
  | None => None
  end.

(** The answer of the address resolver to a parsed reply, tier by tier:
    the structured assembly, else the lower-cased display name, else the
    lower-cased "location lookup failed: <error>", else the generic
    text. *)
Definition tiered_address (d : NominatimData) : string :=
  match structured_assembly d with
  | Some s => s
  | None =>
      match non_empty (display_name d) with
      | Some n => JS.toLowerCase n
      | None =>
          match non_empty (error d) with
          | Some err => JS.toLowerCase ("location lookup failed: " +:+ err)
          | None => "could not determine address"
          end
      end
  end.



(** A text without any of the ASCII capital letters [A] to [Z]. *)
Definition is_ascii_capital (c : ascii) : bool :=
  ((65 <=? nat_of_ascii c)%nat && (nat_of_ascii c <=? 90)%nat)%bool.

Fixpoint no_ascii_capital (s : string) : bool :=
  match s with
  | EmptyString => true
  | String c r => negb (is_ascii_capital c) && no_ascii_capital r
  end.

End Spec.

(* ===================================================================== *)
(** ** Sample upstream replies *)
(* ===================================================================== *)

Module Sample.

(** The number [m * 2^e], rounded to a double. *)
Definition num (m e : Z) : JS.number := binary_normalize 53 1024 m e false.

Definition zero : JS.number := S754_zero false.

(** Around the default map centre of the application. *)
Definition home : Location := {| lat := num 5 (-2); lng := num 415 (-2) |}.

(** A success reply whose body parses to [data]. *)
Definition serve {A : Type} (data : A) : Location -> Fetched A :=
  fun _ => JS.Return {| JS.ok := true; JS.status := 200; JS.json := JS.Return data |}.

Definition serve_elements (els : list OverpassElement)
    : Location -> Fetched (option OverpassData) :=
  serve (Some {| elements := Some els |}).

(** An internal server error with an HTML body. *)
Definition server_error {A : Type} : Location -> Fetched A :=
  fun _ => JS.Return {| JS.ok := false; JS.status := 500;
                        JS.json := JS.Throw {| JS.message :=
                          "Unexpected token '<' is not valid JSON" |} |}.

(** A point element at [home] with the given tags. *)
Definition point (i : Z) (t : option Tags) : OverpassElement :=
  {| el_id := i; el_type := node; el_lat := lat home; el_lon := lng home;
     el_center := None; el_tags := t; el_nodes := None |}.

(** A way with the given members, centred at [c]. *)
Definition area (i : Z) (c : Center) (t : option Tags) (members : list Z)
    : OverpassElement :=
  {| el_id := i; el_type := way; el_lat := lat home; el_lon := lng home;
     el_center := Some c; el_tags := t; el_nodes := Some members |}.

Definition here : Center := {| center_lat := lat home; center_lon := lng home |}.

Definition named (n : string) : Tags :=
  {| tag_name := Some n; tag_addr_street := None; tag_addr_housenumber := None;
     tag_addr_postcode := None; tag_addr_city := None; tag_railway := None;
     tag_toilets := None; tag_amenity := None; tag_fee := None;
     tag_wheelchair := None; tag_diaper := None |}.

Definition toilets_amenity : Tags :=
  {| tag_name := None; tag_addr_street := None; tag_addr_housenumber := None;
     tag_addr_postcode := None; tag_addr_city := None; tag_railway := None;
     tag_toilets := None; tag_amenity := Some "toilets"; tag_fee := Some "no";
     tag_wheelchair := Some "yes"; tag_diaper := Some "no" |}.

Definition station (n : option string) : Tags :=
  {| tag_name := n; tag_addr_street := Some "Main St";
     tag_addr_housenumber := Some "12"; tag_addr_postcode := None;
     tag_addr_city := Some "Singapore"; tag_railway := Some "station";
     tag_toilets := Some "yes"; tag_amenity := None; tag_fee := Some "yes";
     tag_wheelchair := None; tag_diaper := Some "yes" |}.

(** A mall that houses toilet 1, a second way around the same toilet, the
    toilet itself, an untagged point and a station with toilets. *)
Definition neighbourhood : list OverpassElement :=
  [ area 10 here (Some (named "City Mall")) [1; 2];
    area 11 here (Some (named "North Wing")) [1];
    point 1 (Some toilets_amenity);
    point 2 None;
    area 12 here (Some (station (Some "Central"))) [3; 4] ].

(** A station whose name tag is there but empty. *)
Definition unnamed_station : OverpassElement :=
  point 7 (Some (station (Some ""))).

(** A toilet inside a way whose name tag is empty and inside a second
    way with a proper name. *)
Definition nameless_parent : list OverpassElement :=
  [ area 20 here (Some (named "")) [5];
    area 21 here (Some (named "City Mall")) [5];
    point 5 (Some toilets_amenity) ].

(** A toilet whose street tag is there but empty. *)
Definition empty_street : OverpassElement :=
  point 8 (Some
    {| tag_name := None; tag_addr_street := Some ""; tag_addr_housenumber := None;
       tag_addr_postcode := None; tag_addr_city := None; tag_railway := None;
       tag_toilets := None; tag_amenity := Some "toilets"; tag_fee := None;
       tag_wheelchair := None; tag_diaper := None |}).

(** A toilet building whose centroid lies on the equator, at longitude
    32; the direct coordinate of the element is [home]. *)
Definition equator : Center := {| center_lat := zero; center_lon := num 1 5 |}.
Definition equator_toilet : OverpassElement :=
  area 30 equator (Some toilets_amenity) [].

(** The address of the specification's example. *)
Definition main_street : NominatimAddress :=
  {| house_number := Some "12"; road := Some "Main St"; suburb := None;
     city := Some "Singapore"; postcode := Some "123456" |}.

Definition main_street_reply : NominatimData :=
  {| address := Some main_street;
     display_name := Some "12, Main St, Singapore 123456, Singapore";
     error := None |}.

Definition unable_to_geocode : NominatimData :=
  {| address := None; display_name := None; error := Some "Unable to geocode" |}.

End Sample.

(* ===================================================================== *)
(** ** The application component ([App.tsx]) *)
(* ===================================================================== *)

Module App.

Record FilterState := { free : bool; wheelchair : bool; diaper : bool }.

(** [keyof FilterState]. *)
Inductive FilterName := key_free | key_wheelchair | key_diaper.

(** The state variables of the component. *)
Record State := {
  location : option Location;
  status : string;
  locationName : string;
  toilets : list Toilet;
  filteredToilets : list Toilet;
  isFinding : bool;
  mapCenter : Location;
  mapZoom : JS.number;
  filters : FilterState
}.




Definition setToilets (v : list Toilet) (s : State) : State :=
  {| location := location s; status := status s; locationName := locationName s;
     toilets := v; filteredToilets := filteredToilets s;
     isFinding := isFinding s; mapCenter := mapCenter s; mapZoom := mapZoom s;
     filters := filters s |}.

Definition setFilteredToilets (v : list Toilet) (s : State) : State :=
  {| location := location s; status := status s; locationName := locationName s;
     toilets := toilets s; filteredToilets := v;
     isFinding := isFinding s; mapCenter := mapCenter s; mapZoom := mapZoom s;
     filters := filters s |}.

Definition setIsFinding (v : bool) (s : State) : State :=
  {| location := location s; status := status s; locationName := locationName s;
     toilets := toilets s; filteredToilets := filteredToilets s;
     isFinding := v; mapCenter := mapCenter s; mapZoom := mapZoom s;
     filters := filters s |}.



Definition setFilters (v : FilterState) (s : State) : State :=
  {| location := location s; status := status s; locationName := locationName s;
     toilets := toilets s; filteredToilets := filteredToilets s;
     isFinding := isFinding s; mapCenter := mapCenter s; mapZoom := mapZoom s;
     filters := v |}.

(** The number 17, the zoom level set once the user is located. *)
Definition zoom_located : JS.number := binary_normalize 53 1024 17 0 false.


(** The variable [toiletsToFilter] at the end of the effect on
    [[toilets, filters]]; [t.fee === true] on a boolean is the boolean. *)
Definition toiletsToFilter (f : FilterState) (ts : list Toilet) : list Toilet :=
  let toiletsToFilter := ts in
  let toiletsToFilter :=
    if free f then List.filter (fun t => Bool.eqb (t_fee t) true) toiletsToFilter
    else toiletsToFilter in
  let toiletsToFilter :=
    if wheelchair f then List.filter (fun t => Bool.eqb (t_wheelchair t) true) toiletsToFilter
    else toiletsToFilter in
  let toiletsToFilter :=
    if diaper f then List.filter (fun t => Bool.eqb (t_diaper t) true) toiletsToFilter
    else toiletsToFilter in
  toiletsToFilter.

Definition filterEffect (s : State) : State :=
  setFilteredToilets (toiletsToFilter (filters s) (toilets s)) s.

(** [handleFindToilets]: the state when the handler is over, and the
    texts it passed to [alert], in order. *)
Definition handleFindToilets (fetch : Location -> Fetched (option OverpassData))
    (s : State) : State * list string :=
  match location s with
  | None =>
      (s, ["cannot find toilets without your location. please grant access and try again."])
  | Some loc =>
      let s := setIsFinding true s in
      let '(s, alerts) :=
        match findToilets fetch loc with
        | JS.Fulfilled foundToilets =>
            let s := setToilets foundToilets s in
            (s, if (length foundToilets =? 0)%nat
                then ["no toilets found nearby."] else [])
        | JS.Rejected error =>
            (s, [ if JS.truthy_string (JS.message error) then JS.message error
                  else "an unexpected error occurred." ])
        end in
      (setIsFinding false s, alerts)
  end.

(** [prev[filterName]]. *)
Definition enabled (filterName : FilterName) (prev : FilterState) : bool :=
  match filterName with
  | key_free => free prev
  | key_wheelchair => wheelchair prev
  | key_diaper => diaper prev
  end.

(** [{ ...prev, [filterName]: !prev[filterName] }]. *)
Definition toggle (filterName : FilterName) (prev : FilterState) : FilterState :=
  match filterName with
  | key_free =>
      {| free := negb (free prev); wheelchair := wheelchair prev; diaper := diaper prev |}
  | key_wheelchair =>
      {| free := free prev; wheelchair := negb (wheelchair prev); diaper := diaper prev |}
  | key_diaper =>
      {| free := free prev; wheelchair := wheelchair prev; diaper := negb (diaper prev) |}
  end.

Definition handleFilterChange (filterName : FilterName) (s : State) : State :=
  setFilters (toggle filterName (filters s)) s.

(** The caption of the button: [find toilets (${filteredToilets.length})]
    shows this count. *)
Definition shown_count (s : State) : nat := length (filteredToilets s).

End App.

(* ===================================================================== *)
(** ** The map component ([MapView] and [ToiletPopupContent]) *)
(* ===================================================================== *)

Module MapView.

(** The state variables of [ToiletPopupContent]. *)
Record PopupState := { address : string; isLoading : bool }.

(** [useState(toilet.address)] and [useState(false)]. *)
Definition popup_opened (toilet : Toilet) : PopupState :=
  {| address := t_address toilet; isLoading := false |}.

(** One run of the effect [fetchAddress], up to the point where it is
    over. *)
Definition fetchAddress (fetch : Location -> Fetched (option NominatimData))
    (toilet : Toilet) (s : PopupState) : PopupState :=
  if String.eqb (address s) "address not available" then
    let s := {| address := address s; isLoading := true |} in
    let s :=
      match reverseGeocode fetch (t_location toilet) with
      | JS.Fulfilled newAddress => {| address := newAddress; isLoading := isLoading s |}
      | JS.Rejected _ =>
          {| address := "could not look up address"; isLoading := isLoading s |}
      end in
    {| address := address s; isLoading := false |}
  else s.


Section Markers.

(** The bounds of the map and their [contains] test come from the map
    library. *)
Variable LatLngBounds : Type.
Variable contains : LatLngBounds -> JS.number -> JS.number -> bool.

Definition visibleToilets (bounds : option LatLngBounds) (toilets : list Toilet)
    : list Toilet :=
  match bounds with
  | Some b =>
      List.filter
        (fun toilet => contains b (lat (t_location toilet)) (lng (t_location toilet)))
        toilets
  | None => []
  end.

(** The [key] of the marker drawn for each visible toilet. *)
Definition marker_keys (bounds : option LatLngBounds) (toilets : list Toilet)
    : list string :=
  List.map t_id (visibleToilets bounds toilets).

End Markers.

End MapView.

(* ===================================================================== *)
(** ** Sample application states *)
(* ===================================================================== *)

Module Scenario.

Definition no_filters : App.FilterState :=
  {| App.free := false; App.wheelchair := false; App.diaper := false |}.

(** The user has been located at [Sample.home] and has not searched yet. *)
Definition located : App.State :=
  {| App.location := Some Sample.home; App.status := "access granted";
     App.locationName := "12, main st, singapore 123456";
     App.toilets := []; App.filteredToilets := []; App.isFinding := false;
     App.mapCenter := Sample.home; App.mapZoom := App.zoom_located;
     App.filters := no_filters |}.

(** A point toilet with no address tags. *)
Definition bare_toilet : OverpassElement := Sample.point 1 (Some Sample.toilets_amenity).

(** The same user after a search that found the two toilets of
    [Sample.neighbourhood]: the free public toilet and the station toilet
    that charges a fee. *)
Definition searched : App.State :=
  App.filterEffect
    (App.handleFindToilets (Sample.serve_elements Sample.neighbourhood) located).1.

End Scenario.

(* ===================================================================== *)
(** ** Basic facts about the JavaScript operations *)
(* ===================================================================== *)

Lemma strict_eq_true (v : option string) (lit : string) :
  JS.strict_eq v lit = true ↔ v = Some lit.
Proof.
  destruct v as [s|]; simpl.
  - rewrite String.eqb_eq. split; [intros -> | intros [= ->]]; reflexivity.
  - split; discriminate.
Qed.

Lemma strict_eq_decide (v : option string) (lit : string) :
  JS.strict_eq v lit = bool_decide (v = Some lit).
Proof.
  destruct (JS.strict_eq v lit) eqn:E; symmetry.
  - apply bool_decide_eq_true_2, strict_eq_true, E.
  - apply bool_decide_eq_false_2. intros H%strict_eq_true. congruence.
Qed.

Lemma truthy_value_non_empty (v : option string) :
  JS.truthy_value v = Spec.non_empty v.
Proof. destruct v as [[|c s]|]; reflexivity. Qed.

Lemma omap_truthy_non_empty (vs : list (option string)) :
  omap JS.truthy_value vs = omap Spec.non_empty vs.
Proof.
  induction vs as [|v vs IH]; [reflexivity|].
  cbn [omap list_omap]. rewrite truthy_value_non_empty.
  destruct (Spec.non_empty v); [f_equal|]; exact IH.
Qed.

Lemma Forall2_map_each {A B : Type} (P : A -> B -> Prop) (f : A -> B) (l : list A) :
  (∀ a, P a (f a)) -> Forall2 P l (List.map f l).
Proof. intros HP. induction l; simpl; constructor; auto. Qed.

(* ===================================================================== *)
(** ** [findToilets]: what it returns *)
(* ===================================================================== *)

Lemma is_toilet_selected (e : OverpassElement) :
  is_toilet e = bool_decide (Spec.selected e).
Proof.
  unfold is_toilet, Spec.selected. rewrite !strict_eq_decide.
  repeat case_bool_decide; simpl; try reflexivity; exfalso; tauto.
Qed.

Lemma filter_is_toilet (els : list OverpassElement) :
  List.filter is_toilet els = Spec.selected_elements els.
Proof.
  unfold Spec.selected_elements.
  induction els as [|e els IH]; simpl; [reflexivity|].
  rewrite is_toilet_selected, IH. reflexivity.
Qed.

(** On a success reply that carries an element list, the call is fulfilled
    with the records of the selected elements. *)
Lemma findToilets_elements fetch loc els :
  Spec.answers fetch loc (Some {| elements := Some els |}) ->
  findToilets fetch loc
  = JS.Fulfilled (List.map (toToilet (parentNameMap els)) (Spec.selected_elements els)).
Proof.
  intros (resp & Hfetch & Hok & Hjson).
  unfold findToilets, findToilets_try. rewrite Hfetch. simpl.
  rewrite Hok. simpl. rewrite Hjson. simpl.
  rewrite filter_is_toilet. reflexivity.
Qed.

Lemma selection_filter_map (f : OverpassElement -> Toilet) (els : list OverpassElement) :
  Spec.selection f els (List.map f (Spec.selected_elements els)).
Proof.
  unfold Spec.selected_elements.
  induction els as [|e els IH]; simpl.
  - constructor.
  - case_bool_decide; simpl.
    + apply Spec.selection_keep; assumption.
    + apply Spec.selection_drop; assumption.
Qed.

(** C1. Whatever element list the upstream service returns, [findToilets]
    is fulfilled (it does not fail) with one record per element tagged
    amenity=toilets or railway=station with toilets=yes, in upstream order;
    every other element is dropped. *)
Theorem findToilets_selects_toilets fetch loc els :
  Spec.answers fetch loc (Some {| elements := Some els |}) ->
  ∃ ts, findToilets fetch loc = JS.Fulfilled ts
        ∧ Spec.selection (toToilet (parentNameMap els)) els ts.
Proof.
  intros Hans. eexists. split.
  - apply findToilets_elements, Hans.
  - apply selection_filter_map.
Qed.

Lemma findToilets_selects_toilets_witness :
  Spec.answers (Sample.serve_elements Sample.neighbourhood) Sample.home
    (Some {| elements := Some Sample.neighbourhood |})
  ∧ ∃ ts, findToilets (Sample.serve_elements Sample.neighbourhood) Sample.home
          = JS.Fulfilled ts
          ∧ Spec.selection (toToilet (parentNameMap Sample.neighbourhood))
              Sample.neighbourhood ts.
Proof.
  split.
  - eexists. split; [reflexivity | split; reflexivity].
  - apply (findToilets_selects_toilets
             (Sample.serve_elements Sample.neighbourhood) Sample.home).
    eexists. split; [reflexivity | split; reflexivity].
Defined.

(** C2, as the specification words it, fails on the message: after an
    internal server error the caller sees the longer text that names the
    data source, not "failed to find nearby toilets". *)
Lemma findToilets_message_is_longer :
  Spec.UpstreamFailure (Sample.server_error (A := option OverpassData) Sample.home)
  ∧ findToilets Sample.server_error Sample.home
    = JS.Rejected {| JS.message := "failed to find nearby toilets from openstreetmap." |}
  ∧ findToilets Sample.server_error Sample.home
    ≠ JS.Rejected {| JS.message := "failed to find nearby toilets" |}.
Proof.
  split; [|split].
  - apply Spec.non_success_response. reflexivity.
  - reflexivity.
  - discriminate.
Qed.

(** C2, amended. [findToilets] is fail-loud: on a transport failure, a
    non-success response or a body that is not JSON it is rejected with an
    error whose message is the fixed text "failed to find nearby toilets
    from openstreetmap.", whatever the upstream failure was. *)
Theorem findToilets_fails_with_fixed_message fetch loc :
  Spec.UpstreamFailure (fetch loc) ->
  findToilets fetch loc
  = JS.Rejected {| JS.message := "failed to find nearby toilets from openstreetmap." |}.
Proof.
  intros Hfail. unfold findToilets, findToilets_try.
  inversion Hfail as [e He | resp Hok Hresp | resp e Hok Hjson Hresp]; simpl.
  - reflexivity.
  - rewrite Hok. reflexivity.
  - rewrite Hok. simpl. rewrite Hjson. reflexivity.
Qed.

Lemma findToilets_fails_with_fixed_message_witness :
  Spec.UpstreamFailure (Sample.server_error (A := option OverpassData) Sample.home)
  ∧ findToilets Sample.server_error Sample.home
    = JS.Rejected {| JS.message := "failed to find nearby toilets from openstreetmap." |}.
Proof.
  split.
  - apply Spec.non_success_response. reflexivity.
  - apply (findToilets_fails_with_fixed_message Sample.server_error Sample.home).
    apply Spec.non_success_response. reflexivity.
Defined.

(* ===================================================================== *)
(** ** [findToilets]: the fields of a record *)
(* ===================================================================== *)

Lemma element_name_display_name (e : OverpassElement) :
  element_name e = Spec.display_name_of e.
Proof.
  unfold element_name, Spec.display_name_of.
  rewrite strict_eq_decide, truthy_value_non_empty.
  destruct (decide (tag tag_railway e = Some "station")) as [H|H].
  - rewrite bool_decide_eq_true_2 by exact H. reflexivity.
  - rewrite bool_decide_eq_false_2 by exact H. reflexivity.
Qed.

(** C4, as the specification words it, fails on an empty name tag: a
    station whose name tag is there but empty is called "station toilet",
    not " station toilet". *)
Lemma empty_name_tag_counts_as_absent :
  ∃ t, findToilets (Sample.serve_elements [Sample.unnamed_station]) Sample.home
       = JS.Fulfilled [t]
     ∧ tag tag_name Sample.unnamed_station = Some ""
     ∧ t_name t = "station toilet"
     ∧ JS.toLowerCase (Spec.display_name_claim Sample.unnamed_station)
       = " station toilet"
     ∧ t_name t ≠ JS.toLowerCase (Spec.display_name_claim Sample.unnamed_station).
Proof.
  eexists. split; [reflexivity|].
  split; [reflexivity|]. split; [reflexivity|]. split; [reflexivity|].
  discriminate.
Qed.

(** C4, amended. The display name of every selected element is, lower-cased:
    for railway=station, "<name> station toilet" when the element has a
    non-empty name tag and "station toilet" otherwise; for any other
    element, its non-empty name tag, and "public toilet" when it has
    none. *)
Theorem record_display_name fetch loc els :
  Spec.answers fetch loc (Some {| elements := Some els |}) ->
  ∃ ts, findToilets fetch loc = JS.Fulfilled ts
        ∧ Forall2 (fun e t => t_name t = JS.toLowerCase (Spec.display_name_of e))
            (Spec.selected_elements els) ts.
Proof.
  intros Hans. eexists. split.
  - apply findToilets_elements, Hans.
  - apply Forall2_map_each. intros e. simpl.
    rewrite element_name_display_name. reflexivity.
Qed.

Lemma record_display_name_witness :
  Spec.answers (Sample.serve_elements Sample.neighbourhood) Sample.home
    (Some {| elements := Some Sample.neighbourhood |})
  ∧ ∃ ts, findToilets (Sample.serve_elements Sample.neighbourhood) Sample.home
          = JS.Fulfilled ts
          ∧ Forall2 (fun e t => t_name t = JS.toLowerCase (Spec.display_name_of e))
              (Spec.selected_elements Sample.neighbourhood) ts.
Proof.
  split.
  - eexists. split; [reflexivity | split; reflexivity].
  - apply (record_display_name
             (Sample.serve_elements Sample.neighbourhood) Sample.home).
    eexists. split; [reflexivity | split; reflexivity].
Defined.

(** C7. In the record of every selected element the fee-exempt flag is
    true exactly when the fee tag is "no" or "0", and the wheelchair and
    diaper flags are true exactly when the respective tag is "yes". *)
Theorem record_capability_flags fetch loc els :
  Spec.answers fetch loc (Some {| elements := Some els |}) ->
  ∃ ts, findToilets fetch loc = JS.Fulfilled ts
        ∧ Forall2 (fun e t =>
              (t_fee t = true ↔ tag tag_fee e = Some "no" ∨ tag tag_fee e = Some "0")
              ∧ (t_wheelchair t = true ↔ tag tag_wheelchair e = Some "yes")
              ∧ (t_diaper t = true ↔ tag tag_diaper e = Some "yes"))
            (Spec.selected_elements els) ts.
Proof.
  intros Hans. eexists. split.
  - apply findToilets_elements, Hans.
  - apply Forall2_map_each. intros e. simpl.
    rewrite orb_true_iff, !strict_eq_true. tauto.
Qed.

Lemma record_capability_flags_witness :
  Spec.answers (Sample.serve_elements Sample.neighbourhood) Sample.home
    (Some {| elements := Some Sample.neighbourhood |})
  ∧ ∃ ts, findToilets (Sample.serve_elements Sample.neighbourhood) Sample.home
          = JS.Fulfilled ts
          ∧ Forall2 (fun e t =>
              (t_fee t = true ↔ tag tag_fee e = Some "no" ∨ tag tag_fee e = Some "0")
              ∧ (t_wheelchair t = true ↔ tag tag_wheelchair e = Some "yes")
              ∧ (t_diaper t = true ↔ tag tag_diaper e = Some "yes"))
            (Spec.selected_elements Sample.neighbourhood) ts.
Proof.
  split.
  - eexists. split; [reflexivity | split; reflexivity].
  - apply (record_capability_flags
             (Sample.serve_elements Sample.neighbourhood) Sample.home).
    eexists. split; [reflexivity | split; reflexivity].
Defined.

Lemma toToilet_address (pm : gmap Z string) (e : OverpassElement) :
  t_address (toToilet pm e) = Spec.address_of e.
Proof.
  unfold toToilet, addressParts, Spec.address_of, Spec.address_tags.
  cbn [t_address]. rewrite omap_truthy_non_empty.
  generalize (omap Spec.non_empty
    [ tag tag_addr_street e; tag tag_addr_housenumber e;
      tag tag_addr_postcode e; tag tag_addr_city e ]).
  intros [|v vs]; reflexivity.
Qed.

(** C8, as the specification words it, fails on an empty tag value: a
    toilet whose only address tag is an empty street has the address
    "address not available", not the empty string. *)
Lemma empty_address_tag_counts_as_absent :
  ∃ t, findToilets (Sample.serve_elements [Sample.empty_street]) Sample.home
       = JS.Fulfilled [t]
     ∧ tag tag_addr_street Sample.empty_street = Some ""
     ∧ t_address t = "address not available"
     ∧ Spec.address_claim Sample.empty_street = ""
     ∧ t_address t ≠ Spec.address_claim Sample.empty_street.
Proof.
  eexists. split; [reflexivity|].
  split; [reflexivity|]. split; [reflexivity|]. split; [reflexivity|].
  discriminate.
Qed.

(** C8, amended. The address of every selected element joins, with ", "
    and in the order street, house number, postcode, city, the values of
    those tags that are there and not empty, lower-cased; when there is no
    such value it is "address not available". *)
Theorem record_address fetch loc els :
  Spec.answers fetch loc (Some {| elements := Some els |}) ->
  ∃ ts, findToilets fetch loc = JS.Fulfilled ts
        ∧ Forall2 (fun e t => t_address t = Spec.address_of e)
            (Spec.selected_elements els) ts.
Proof.
  intros Hans. eexists. split.
  - apply findToilets_elements, Hans.
  - apply Forall2_map_each. intros e. apply toToilet_address.
Qed.

Lemma record_address_witness :
  Spec.answers (Sample.serve_elements Sample.neighbourhood) Sample.home
    (Some {| elements := Some Sample.neighbourhood |})
  ∧ ∃ ts, findToilets (Sample.serve_elements Sample.neighbourhood) Sample.home
          = JS.Fulfilled ts
          ∧ Forall2 (fun e t => t_address t = Spec.address_of e)
              (Spec.selected_elements Sample.neighbourhood) ts.
Proof.
  split.
  - eexists. split; [reflexivity | split; reflexivity].
  - apply (record_address
             (Sample.serve_elements Sample.neighbourhood) Sample.home).
    eexists. split; [reflexivity | split; reflexivity].
Defined.

(** Where the location of a record comes from: the centroid coordinate
    when the element has a centroid and that coordinate is truthy, the
    direct coordinate otherwise. *)
Lemma toToilet_location (pm : gmap Z string) (e : OverpassElement) :
  t_location (toToilet pm e)
  = match el_center e with
    | Some c =>
        {| lat := if JS.truthy_number (center_lat c) then center_lat c else el_lat e;
           lng := if JS.truthy_number (center_lon c) then center_lon c else el_lon e |}
    | None => {| lat := el_lat e; lng := el_lon e |}
    end.
Proof. unfold toToilet. cbn [t_location]. destruct (el_center e); reflexivity. Qed.

(** C9 does not hold of the code: a centroid coordinate that is zero is
    taken for a missing one. The toilet building centred on the equator at
    longitude 32 gets the latitude of the element's direct coordinate and
    the longitude of its centroid. *)
Theorem zero_centroid_latitude_is_dropped :
  ∃ t, findToilets (Sample.serve_elements [Sample.equator_toilet]) Sample.home
       = JS.Fulfilled [t]
     ∧ el_center Sample.equator_toilet = Some Sample.equator
     ∧ t_location t = {| lat := el_lat Sample.equator_toilet;
                         lng := center_lon Sample.equator |}
     ∧ lat (t_location t) ≠ center_lat Sample.equator.
Proof.
  eexists. split; [reflexivity|].
  split; [reflexivity|]. split; [reflexivity|].
  discriminate.
Qed.

(* ===================================================================== *)
(** ** [findToilets]: the parent-name map *)
(* ===================================================================== *)

(** The inner loop leaves an entry that is already there alone, and gives
    every other member of the way the way's name. *)
Lemma lookup_set_if_absent_fold (name : string) (members : list Z)
    (m : gmap Z string) (i : Z) :
  fold_left (set_if_absent name) members m !! i
  = match m !! i with
    | Some v => Some v
    | None => if bool_decide (i ∈ members) then Some name else None
    end.
Proof.
  revert m. induction members as [|n members IH]; intros m; simpl.
  - destruct (m !! i); reflexivity.
  - rewrite IH. unfold set_if_absent.
    destruct (decide (i = n)) as [->|Hne].
    + rewrite (bool_decide_eq_true_2 (n ∈ n :: members)) by apply list_elem_of_here.
      destruct (m !! n) as [v|] eqn:Hn.
      * rewrite Hn. reflexivity.
      * rewrite lookup_insert_eq. reflexivity.
    + assert (Hmem : bool_decide (i ∈ n :: members) = bool_decide (i ∈ members)).
      { apply bool_decide_ext. rewrite elem_of_cons. tauto. }
      rewrite Hmem.
      destruct (m !! n) as [v|] eqn:Hn.
      * reflexivity.
      * rewrite lookup_insert_ne by congruence. reflexivity.
Qed.

Lemma lookup_add_way (m : gmap Z string) (w : OverpassElement) (i : Z) :
  add_way m w !! i
  = match m !! i with
    | Some v => Some v
    | None => if bool_decide (i ∈ way_nodes w) then Some (way_name w) else None
    end.
Proof. apply lookup_set_if_absent_fold. Qed.

(** First writer wins: an entry, once written, survives every later way. *)
Lemma lookup_add_ways (ws : list OverpassElement) (m : gmap Z string) (i : Z) :
  fold_left add_way ws m !! i
  = match m !! i with
    | Some v => Some v
    | None => way_name <$> List.find (fun w => bool_decide (i ∈ way_nodes w)) ws
    end.
Proof.
  revert m. induction ws as [|w ws IH]; intros m; simpl.
  - destruct (m !! i); reflexivity.
  - rewrite IH, lookup_add_way.
    destruct (m !! i) as [v|]; [reflexivity|].
    destruct (bool_decide (i ∈ way_nodes w)); reflexivity.
Qed.

Lemma find_filter {A : Type} (keep test : A -> bool) (l : list A) :
  List.find test (List.filter keep l) = List.find (fun a => keep a && test a) l.
Proof.
  induction l as [|a l IH]; simpl; [reflexivity|].
  destruct (keep a); simpl; [|exact IH].
  destruct (test a); [reflexivity | exact IH].
Qed.

Lemma find_ext_bool {A : Type} (f g : A -> bool) (l : list A) :
  (∀ a, f a = g a) -> List.find f l = List.find g l.
Proof.
  intros Hfg. induction l as [|a l IH]; simpl; [reflexivity|].
  rewrite Hfg, IH. reflexivity.
Qed.

Lemma is_named_way_houses (i : Z) (w : OverpassElement) :
  is_named_way w && bool_decide (i ∈ way_nodes w) = Spec.houses i w.
Proof.
  unfold is_named_way, Spec.houses, way_nodes.
  assert (Hty : ElementType_eqb (el_type w) way = bool_decide (el_type w = way)).
  { destruct (el_type w); reflexivity. }
  assert (Hname : JS.truthy (tag tag_name w)
                  = bool_decide (is_Some (Spec.non_empty (tag tag_name w)))).
  { destruct (tag tag_name w) as [[|c s]|]; reflexivity. }
  rewrite Hty, Hname.
  destruct (el_nodes w) as [members|]; simpl.
  - rewrite andb_true_r. reflexivity.
  - rewrite !andb_false_r. reflexivity.
Qed.

Lemma houses_way_name (i : Z) (w : OverpassElement) :
  Spec.houses i w = true -> tag tag_name w = Some (way_name w).
Proof.
  unfold Spec.houses, way_name. intros H.
  destruct (tag tag_name w) as [n|]; [reflexivity|].
  rewrite andb_true_iff, andb_true_iff in H.
  destruct H as [[_ H] _]. apply bool_decide_eq_true_1 in H.
  destruct H as [x Hx]. discriminate Hx.
Qed.

(** The map holds, for every identifier, the name of the first way of the
    response that has a non-empty name and lists the identifier. *)
Lemma lookup_parentNameMap (els : list OverpassElement) (i : Z) :
  parentNameMap els !! i
  = match List.find (Spec.houses i) els with
    | Some w => tag tag_name w
    | None => None
    end.
Proof.
  unfold parentNameMap.
  rewrite lookup_add_ways, lookup_empty, find_filter.
  rewrite (find_ext_bool _ (Spec.houses i)) by (intros w; apply is_named_way_houses).
  destruct (List.find (Spec.houses i) els) as [w|] eqn:Hfind; simpl; [|reflexivity].
  apply find_some in Hfind as [_ Hw].
  symmetry. apply (houses_way_name i), Hw.
Qed.

Lemma toToilet_housedIn (els : list OverpassElement) (e : OverpassElement) :
  t_housedIn (toToilet (parentNameMap els) e) = Spec.housedIn_of els e.
Proof.
  unfold toToilet, element_housedIn, Spec.housedIn_of, Spec.housedIn_by.
  cbn [t_housedIn].
  destruct (el_type e); cbn [ElementType_eqb]; try reflexivity.
  rewrite lookup_parentNameMap.
  destruct (List.find _ els); reflexivity.
Qed.

(** C5, as the specification words it, fails on an empty name tag: a way
    whose name tag is there but empty does not count as a parent. The
    toilet that lies in such a way and, later in the response, in the way
    named "City Mall" is housed in "city mall", not in "". *)
Lemma empty_way_name_is_not_a_parent :
  ∃ t, findToilets (Sample.serve_elements Sample.nameless_parent) Sample.home
       = JS.Fulfilled [t]
     ∧ t_housedIn t = Some "city mall"
     ∧ Spec.housedIn_claim Sample.nameless_parent (Sample.point 5 (Some Sample.toilets_amenity))
       = Some ""
     ∧ t_housedIn t
       ≠ Spec.housedIn_claim Sample.nameless_parent
           (Sample.point 5 (Some Sample.toilets_amenity)).
Proof.
  eexists. split; [vm_compute; reflexivity|].
  split; [reflexivity|]. split; [vm_compute; reflexivity|].
  vm_compute. discriminate.
Qed.

(** C5, amended. Only a node gets a housed-in name: it is the lower-cased
    name of the first way of the response, in upstream order, that has a
    non-empty name tag and a member list holding the node's identifier
    (a later way never replaces it), and it is absent when there is no
    such way; a selected way or relation has no housed-in name. *)
Theorem record_housedIn fetch loc els :
  Spec.answers fetch loc (Some {| elements := Some els |}) ->
  ∃ ts, findToilets fetch loc = JS.Fulfilled ts
        ∧ Forall2 (fun e t => t_housedIn t = Spec.housedIn_of els e)
            (Spec.selected_elements els) ts.
Proof.
  intros Hans. eexists. split.
  - apply findToilets_elements, Hans.
  - apply Forall2_map_each. intros e. apply toToilet_housedIn.
Qed.

Lemma record_housedIn_witness :
  Spec.answers (Sample.serve_elements Sample.neighbourhood) Sample.home
    (Some {| elements := Some Sample.neighbourhood |})
  ∧ ∃ ts, findToilets (Sample.serve_elements Sample.neighbourhood) Sample.home
          = JS.Fulfilled ts
          ∧ Forall2 (fun e t => t_housedIn t = Spec.housedIn_of Sample.neighbourhood e)
              (Spec.selected_elements Sample.neighbourhood) ts.
Proof.
  split.
  - eexists. split; [reflexivity | split; reflexivity].
  - apply (record_housedIn
             (Sample.serve_elements Sample.neighbourhood) Sample.home).
    eexists. split; [reflexivity | split; reflexivity].
Defined.

(* ===================================================================== *)
(** ** [reverseGeocode]: the structured address *)
(* ===================================================================== *)

Lemma existsb_eqb_elem_of (v : string) (l : list string) :
  existsb (String.eqb v) l = bool_decide (v ∈ l).
Proof.
  induction l as [|x l IH].
  - symmetry. apply bool_decide_eq_false_2, not_elem_of_nil.
  - cbn [existsb]. rewrite IH. destruct (String.eqb_spec v x) as [->|Hne]; simpl.
    + symmetry. apply bool_decide_eq_true_2, list_elem_of_here.
    + apply bool_decide_ext. rewrite elem_of_cons. tauto.
Qed.

(** Reading a [Set] back in insertion order keeps the first occurrence of
    every value. *)
Lemma Set_add_fold (parts held : list string) :
  fold_left JS.Set_add parts held
  = (held ++ Spec.dedup_first (list_to_set held) parts)%list.
Proof.
  revert held. induction parts as [|p parts IH]; intros held; simpl.
  - rewrite app_nil_r. reflexivity.
  - rewrite IH. unfold JS.Set_add. rewrite existsb_eqb_elem_of.
    destruct (decide (p ∈ (list_to_set held : gset string))) as [Hin|Hin].
    + rewrite bool_decide_eq_true_2 by (apply elem_of_list_to_set in Hin; exact Hin).
      reflexivity.
    + rewrite bool_decide_eq_false_2
        by (intros H; apply Hin, elem_of_list_to_set, H).
      rewrite <- app_assoc. simpl. do 3 f_equal.
      rewrite list_to_set_app_L. cbn [list_to_set foldr].
      rewrite (right_id_L ∅ (∪)). apply (comm_L (∪)).
Qed.

Lemma Set_from_dedup_first (parts : list string) :
  JS.Set_from parts = Spec.dedup_first ∅ parts.
Proof. unfold JS.Set_from. rewrite Set_add_fold. reflexivity. Qed.

Lemma push_if_truthy_app (parts : list string) (v : option string) :
  push_if_truthy parts v = (parts ++ omap Spec.non_empty [v])%list.
Proof.
  unfold push_if_truthy. rewrite truthy_value_non_empty. cbn [omap list_omap].
  destruct (Spec.non_empty v); [reflexivity | rewrite app_nil_r; reflexivity].
Qed.

Lemma is_singapore_decide (adr : NominatimAddress) :
  is_singapore adr = bool_decide (Spec.city_is_singapore adr).
Proof.
  destruct (is_singapore adr) eqn:E; symmetry;
    [apply bool_decide_eq_true_2 | apply bool_decide_eq_false_2];
    unfold is_singapore, Spec.city_is_singapore in *.
  - destruct (city adr) as [c|]; [|discriminate E].
    apply andb_true_iff in E as [_ E]. apply String.eqb_eq in E.
    exists c. split; [reflexivity | exact E].
  - intros (c & Hc & Hl). rewrite Hc in E.
    apply andb_false_iff in E as [E|E].
    + destruct c; [discriminate Hl | discriminate E].
    + apply String.eqb_neq in E. exact (E Hl).
Qed.

Lemma omap_non_empty_app (us vs : list (option string)) :
  omap Spec.non_empty (us ++ vs)%list
  = (omap Spec.non_empty us ++ omap Spec.non_empty vs)%list.
Proof.
  induction us as [|u us IH]; [reflexivity|].
  cbn [app omap list_omap]. destruct (Spec.non_empty u); simpl; rewrite <- IH; reflexivity.
Qed.

(** The array [parts] holds the tokens of the specification. *)
Lemma address_parts_tokens (adr : NominatimAddress) :
  address_parts adr = Spec.address_tokens adr.
Proof.
  unfold address_parts, Spec.address_tokens.
  rewrite is_singapore_decide, truthy_value_non_empty, !push_if_truthy_app.
  cbn [app].
  change [house_number adr; road adr; suburb adr]
    with ([house_number adr] ++ [road adr] ++ [suburb adr])%list.
  change [city adr; postcode adr] with ([city adr] ++ [postcode adr])%list.
  rewrite !omap_non_empty_app.
  destruct (decide (Spec.city_is_singapore adr)) as [H|H].
  - rewrite bool_decide_eq_true_2 by exact H.
    destruct (Spec.non_empty (postcode adr)); rewrite <- ?app_assoc; reflexivity.
  - rewrite bool_decide_eq_false_2 by exact H.
    rewrite <- ?app_assoc. reflexivity.
Qed.

Lemma dedup_first_nil (l : list string) :
  Spec.dedup_first ∅ l = [] -> l = [].
Proof.
  destruct l as [|x l]; [reflexivity|]. simpl.
  destruct (decide (x ∈ (∅ : gset string))) as [Hin|_]; [|discriminate].
  exfalso. exact (not_elem_of_empty x Hin).
Qed.

Lemma structured_address_assembly (d : NominatimData) :
  structured_address (Some d) = Spec.structured_assembly d.
Proof.
  unfold structured_address, Spec.structured_assembly, Spec.assembled_address.
  destruct (address d) as [adr|]; [|reflexivity].
  cbv zeta. rewrite Set_from_dedup_first, address_parts_tokens.
  destruct (Spec.address_tokens adr) as [|tok toks] eqn:Htok; [reflexivity|].
  destruct (Spec.dedup_first ∅ (tok :: toks)) eqn:Hdd; [|reflexivity].
  apply dedup_first_nil in Hdd. discriminate Hdd.
Qed.

(** On a parsed reply the resolver answers tier by tier. *)
Lemma reverseGeocode_parsed fetch loc d :
  Spec.answers fetch loc (Some d) ->
  reverseGeocode fetch loc = JS.Fulfilled (Spec.tiered_address d).
Proof.
  intros (resp & Hfetch & Hok & Hjson).
  unfold reverseGeocode, reverseGeocode_try, Spec.tiered_address.
  rewrite Hfetch. simpl. rewrite Hok. simpl. rewrite Hjson. simpl.
  change (match address d with
          | Some adr =>
              match JS.Set_from (address_parts adr) with
              | [] => None
              | _ :: _ =>
                  Some (JS.toLowerCase (JS.join ", " (JS.Set_from (address_parts adr))))
              end
          | None => None
          end) with (structured_address (Some d)).
  rewrite structured_address_assembly, !truthy_value_non_empty.
  destruct (Spec.structured_assembly d); [reflexivity|].
  destruct (Spec.non_empty (display_name d)); [reflexivity|].
  destruct (Spec.non_empty (error d)); reflexivity.
Qed.

(** C6. When the reply carries an address object that yields a token, the
    resolver returns the tokens house number, road, suburb, then
    "singapore <postcode>" (or "singapore") for a city that is Singapore up
    to case and city then postcode otherwise, de-duplicated keeping first
    occurrences, joined with ", " and lower-cased. *)
Theorem reverseGeocode_structured_address fetch loc d adr :
  Spec.answers fetch loc (Some d) ->
  address d = Some adr ->
  Spec.address_tokens adr ≠ [] ->
  reverseGeocode fetch loc = JS.Fulfilled (Spec.assembled_address adr).
Proof.
  intros Hans Hadr Htok.
  rewrite (reverseGeocode_parsed fetch loc d Hans).
  unfold Spec.tiered_address, Spec.structured_assembly. rewrite Hadr.
  destruct (Spec.address_tokens adr); [contradiction | reflexivity].
Qed.

(** The example of the specification: house number 12, Main St, postcode
    123456, city Singapore. *)
Lemma reverseGeocode_structured_address_witness :
  Spec.answers (Sample.serve (Some Sample.main_street_reply)) Sample.home
    (Some Sample.main_street_reply)
  ∧ address Sample.main_street_reply = Some Sample.main_street
  ∧ Spec.address_tokens Sample.main_street ≠ []
  ∧ reverseGeocode (Sample.serve (Some Sample.main_street_reply)) Sample.home
    = JS.Fulfilled "12, main st, singapore 123456".
Proof.
  split; [|split; [|split]].
  - eexists. split; [reflexivity | split; reflexivity].
  - reflexivity.
  - vm_compute. discriminate.
  - apply (reverseGeocode_structured_address
             (Sample.serve (Some Sample.main_street_reply)) Sample.home
             Sample.main_street_reply Sample.main_street).
    + eexists. split; [reflexivity | split; reflexivity].
    + reflexivity.
    + vm_compute. discriminate.
Defined.

(* ===================================================================== *)
(** ** [reverseGeocode]: totality and the fallback tiers *)
(* ===================================================================== *)



(** C10. When the call succeeds and the body parses to [null], reading
    [display_name] throws inside [try], and the caller is told "unknown
    location (network error)" rather than "could not determine address". *)
Theorem reverseGeocode_null_body fetch loc :
  Spec.answers fetch loc None ->
  (∃ e, reverseGeocode_try (fetch loc) = JS.Throw e)
  ∧ reverseGeocode fetch loc = JS.Fulfilled "unknown location (network error)"
  ∧ reverseGeocode fetch loc ≠ JS.Fulfilled "could not determine address".
Proof.
  intros (resp & Hfetch & Hok & Hjson).
  unfold reverseGeocode, reverseGeocode_try.
  rewrite Hfetch. simpl. rewrite Hok. simpl. rewrite Hjson. simpl.
  split; [eexists; reflexivity|]. split; [reflexivity | discriminate].
Qed.

Lemma reverseGeocode_null_body_witness :
  Spec.answers (Sample.serve (None : option NominatimData)) Sample.home None
  ∧ (∃ e, reverseGeocode_try (Sample.serve None Sample.home) = JS.Throw e)
  ∧ reverseGeocode (Sample.serve None) Sample.home
    = JS.Fulfilled "unknown location (network error)"
  ∧ reverseGeocode (Sample.serve None) Sample.home
    ≠ JS.Fulfilled "could not determine address".
Proof.
  split.
  - eexists. split; [reflexivity | split; reflexivity].
  - apply (reverseGeocode_null_body (Sample.serve None) Sample.home).
    eexists. split; [reflexivity | split; reflexivity].
Defined.

(** Two more replies, one for each of the lower tiers. *)
Example reverseGeocode_upstream_error :
  reverseGeocode (Sample.serve (Some Sample.unable_to_geocode)) Sample.home
  = JS.Fulfilled "location lookup failed: unable to geocode".
Proof. reflexivity. Qed.

Example reverseGeocode_nothing_usable :
  reverseGeocode
    (Sample.serve (Some {| address := None; display_name := None; error := None |}))
    Sample.home
  = JS.Fulfilled "could not determine address".
Proof. reflexivity. Qed.

Example reverseGeocode_server_error :
  reverseGeocode Sample.server_error Sample.home
  = JS.Fulfilled "unknown location (network error)".
Proof. reflexivity. Qed.

(* ===================================================================== *)
(** ** Further properties of [findToilets] *)
(* ===================================================================== *)

(** Lower-casing leaves none of the letters [A] to [Z] behind. *)
Lemma lower_ascii_not_capital (c : ascii) :
  Spec.is_ascii_capital (JS.lower_ascii c) = false.
Proof. destruct c as [[] [] [] [] [] [] [] []]; reflexivity. Qed.

Lemma toLowerCase_no_capital (s : string) :
  Spec.no_ascii_capital (JS.toLowerCase s) = true.
Proof.
  induction s as [|c s IH]; simpl; [reflexivity|].
  rewrite lower_ascii_not_capital, IH. reflexivity.
Qed.

Lemma toLowerCase_empty (s : string) : JS.toLowerCase s = "" -> s = "".
Proof. destruct s; [reflexivity | discriminate]. Qed.



Lemma toString_not_empty (n : Z) : JS.toString n ≠ "".
Proof.
  unfold JS.toString, NilZero.string_of_int, NilZero.string_of_uint.
  destruct (Z.to_int n) as [d|d]; destruct d; discriminate.
Qed.

(** The decimal numeral determines the number. *)
Lemma toString_inj (m n : Z) : JS.toString m = JS.toString n -> m = n.
Proof.
  unfold JS.toString. intros H.
  assert (Hnil : ∀ z, Z.to_int z ≠ Decimal.Pos Decimal.Nil
                      ∧ Z.to_int z ≠ Decimal.Neg Decimal.Nil).
  { intros [|p|p]; simpl; split; try discriminate;
      intros [= Hp]; exact (DecimalPos.Unsigned.to_uint_nonnil p Hp). }
  apply DecimalZ.to_int_inj.
  assert (Hm := NilZero.isi (Z.to_int m) (proj1 (Hnil m)) (proj2 (Hnil m))).
  assert (Hn := NilZero.isi (Z.to_int n) (proj1 (Hnil n)) (proj2 (Hnil n))).
  rewrite H in Hm. rewrite Hm in Hn. injection Hn as Hn. exact Hn.
Qed.

Lemma Forall_map_each {A B : Type} (P : B -> Prop) (f : A -> B) (l : list A) :
  (∀ a, P (f a)) -> Forall P (List.map f l).
Proof. intros HP. induction l; simpl; constructor; auto. Qed.

(** What a fulfilled call holds: the records of the selected elements of
    some element list (the empty one when the body carried none). *)
Lemma findToilets_fulfilled fetch loc ts :
  findToilets fetch loc = JS.Fulfilled ts ->
  ∃ els, ts = List.map (toToilet (parentNameMap els)) (Spec.selected_elements els).
Proof.
  unfold findToilets, findToilets_try.
  destruct (fetch loc) as [resp|e]; simpl; [|discriminate].
  destruct (JS.ok resp); simpl; [|discriminate].
  destruct (JS.json resp) as [[[[els|]]|]|e]; simpl; try discriminate.
  - intros [= <-]. exists els. rewrite filter_is_toilet. reflexivity.
  - intros [= <-]. exists []. reflexivity.
  - intros [= <-]. exists []. reflexivity.
Qed.

Lemma findToilets_rejected_on_failure fetch loc :
  Spec.UpstreamFailure (fetch loc) -> ∃ e, findToilets fetch loc = JS.Rejected e.
Proof.
  intros Hfail. eexists. unfold findToilets, findToilets_try.
  inversion Hfail as [e He | resp Hok Hresp | resp e Hok Hjson Hresp]; simpl.
  - reflexivity.
  - rewrite Hok. reflexivity.
  - rewrite Hok. simpl. rewrite Hjson. reflexivity.
Qed.

(** X1. For a reply whose body, when it parses, has the declared shape
    ([null], an object without [elements], or an object whose [elements]
    follow the interface [OverpassElement]), [findToilets] is rejected
    exactly when the transport fails, the status is not a success or the
    body is not JSON: building the map and the records never throws. *)
Theorem findToilets_rejected_iff_upstream_failure fetch loc :
  (∃ e, findToilets fetch loc = JS.Rejected e) ↔ Spec.UpstreamFailure (fetch loc).
Proof.
  split.
  - intros [err H]. unfold findToilets, findToilets_try in H.
    destruct (fetch loc) as [resp|e] eqn:Hfetch; simpl in H.
    + destruct (JS.ok resp) eqn:Hok; simpl in H.
      * destruct (JS.json resp) as [data|e] eqn:Hjson; simpl in H.
        -- destruct data as [[[els|]]|]; discriminate H.
        -- eapply Spec.malformed_body; eassumption.
      * apply Spec.non_success_response, Hok.
    + apply Spec.transport_failure.
  - apply findToilets_rejected_on_failure.
Qed.

(** X2. A success reply whose body is [null], has no [elements] or has an
    empty [elements] array is not an error: the call is fulfilled with no
    record. *)
Theorem findToilets_without_elements fetch loc data :
  Spec.answers fetch loc data ->
  data = None ∨ data = Some {| elements := None |}
    ∨ data = Some {| elements := Some [] |} ->
  findToilets fetch loc = JS.Fulfilled [].
Proof.
  intros (resp & Hfetch & Hok & Hjson) Hdata.
  unfold findToilets, findToilets_try.
  rewrite Hfetch. simpl. rewrite Hok. simpl. rewrite Hjson. simpl.
  destruct Hdata as [->|[->| ->]]; reflexivity.
Qed.

Lemma findToilets_without_elements_witness :
  Spec.answers (Sample.serve (None : option OverpassData)) Sample.home None
  ∧ findToilets (Sample.serve None) Sample.home = JS.Fulfilled [].
Proof.
  split.
  - eexists. split; [reflexivity | split; reflexivity].
  - apply (findToilets_without_elements (Sample.serve None) Sample.home None).
    + eexists. split; [reflexivity | split; reflexivity].
    + left. reflexivity.
Defined.



Lemma join_not_empty (sep p : string) (ps : list string) :
  p ≠ "" -> JS.join sep (p :: ps) ≠ "".
Proof.
  intros Hp. destruct p as [|c p]; [contradiction|].
  destruct ps; simpl; discriminate.
Qed.

Lemma truthy_value_not_empty (v : option string) (s : string) :
  JS.truthy_value v = Some s -> s ≠ "".
Proof.
  destruct v as [[|c r]|]; simpl; intros [= <-]. discriminate.
Qed.

Lemma omap_truthy_head (vs : list (option string)) (p : string) (ps : list string) :
  omap JS.truthy_value vs = p :: ps -> p ≠ "".
Proof.
  induction vs as [|v vs IH]; [discriminate|].
  cbn [omap list_omap].
  destruct (JS.truthy_value v) as [s|] eqn:Hv; [|exact IH].
  intros [= <- _]. exact (truthy_value_not_empty v s Hv).
Qed.

Lemma element_name_not_empty (e : OverpassElement) : element_name e ≠ "".
Proof.
  unfold element_name.
  destruct (JS.strict_eq (tag tag_railway e) "station");
    destruct (JS.truthy_value (tag tag_name e)) as [n|] eqn:Hn;
    try discriminate.
  - destruct n; discriminate.
  - exact (truthy_value_not_empty _ n Hn).
Qed.

(** The names kept in the map are never empty. *)
Lemma parentNameMap_not_empty (els : list OverpassElement) (i : Z) :
  parentNameMap els !! i ≠ Some "".
Proof.
  rewrite lookup_parentNameMap.
  destruct (List.find (Spec.houses i) els) as [w|] eqn:Hfind; [|discriminate].
  apply find_some in Hfind as [_ Hw]. unfold Spec.houses in Hw.
  rewrite !andb_true_iff in Hw. destruct Hw as [[_ Hname] _].
  apply bool_decide_eq_true_1 in Hname.
  intros Hempty. rewrite Hempty in Hname. destruct Hname as [x Hx]. discriminate Hx.
Qed.

(** X4. No record has a blank text: its identifier, its name and its
    address are never the empty string, and a housed-in name, when there
    is one, is not empty either. *)
Theorem record_strings_not_empty fetch loc ts :
  findToilets fetch loc = JS.Fulfilled ts ->
  Forall (fun t =>
      t_id t ≠ "" ∧ t_name t ≠ "" ∧ t_address t ≠ "" ∧ t_housedIn t ≠ Some "") ts.
Proof.
  intros [els ->]%findToilets_fulfilled.
  apply Forall_map_each. intros e.
  unfold toToilet. cbn [t_id t_name t_address t_housedIn].
  split; [apply toString_not_empty|].
  split; [intros H%toLowerCase_empty; exact (element_name_not_empty e H)|].
  split.
  - intros H%toLowerCase_empty. revert H. unfold addressParts.
    destruct (omap JS.truthy_value _) as [|p ps] eqn:Hparts; [discriminate|].
    apply join_not_empty. exact (omap_truthy_head _ p ps Hparts).
  - unfold element_housedIn.
    destruct (ElementType_eqb (el_type e) node); [|discriminate].
    destruct (parentNameMap els !! el_id e) as [n|] eqn:Hn; [|discriminate].
    simpl. intros [= H%toLowerCase_empty]. subst n.
    exact (parentNameMap_not_empty els (el_id e) Hn).
Qed.

Lemma record_strings_not_empty_witness :
  findToilets (Sample.serve_elements Sample.neighbourhood) Sample.home
  = JS.Fulfilled
      (List.map (toToilet (parentNameMap Sample.neighbourhood))
         (Spec.selected_elements Sample.neighbourhood))
  ∧ Forall (fun t =>
      t_id t ≠ "" ∧ t_name t ≠ "" ∧ t_address t ≠ "" ∧ t_housedIn t ≠ Some "")
      (List.map (toToilet (parentNameMap Sample.neighbourhood))
         (Spec.selected_elements Sample.neighbourhood)).
Proof.
  split.
  - vm_compute. reflexivity.
  - apply (record_strings_not_empty
             (Sample.serve_elements Sample.neighbourhood) Sample.home).
    vm_compute. reflexivity.
Defined.

Lemma NoDup_map_filter {A B : Type} (g : A -> B) (p : A -> bool) (l : list A) :
  NoDup (List.map g l) -> NoDup (List.map g (List.filter p l)).
Proof.
  induction l as [|a l IH]; simpl; intros Hnd; [exact Hnd|].
  apply NoDup_cons in Hnd as [Hnotin Hnd].
  destruct (p a); simpl; [|exact (IH Hnd)].
  apply NoDup_cons. split; [|exact (IH Hnd)].
  intros Hin. apply Hnotin.
  apply list_elem_of_In in Hin. apply list_elem_of_In.
  apply in_map_iff in Hin as (x & Hx & Hin).
  apply in_map_iff. exists x. split; [exact Hx|].
  apply filter_In in Hin. tauto.
Qed.

Lemma NoDup_map_compose_inj {A B C : Type} (g : A -> B) (h : B -> C) (l : list A) :
  (∀ x y, h x = h y -> x = y) ->
  NoDup (List.map g l) -> NoDup (List.map (fun a => h (g a)) l).
Proof.
  intros Hinj. induction l as [|a l IH]; simpl; intros Hnd; [constructor|].
  apply NoDup_cons in Hnd as [Hnotin Hnd].
  apply NoDup_cons. split; [|exact (IH Hnd)].
  intros Hin. apply Hnotin.
  apply list_elem_of_In in Hin. apply list_elem_of_In.
  apply in_map_iff in Hin as (x & Hx & Hin).
  apply in_map_iff. exists x. split; [exact (Hinj _ _ Hx) | exact Hin].
Qed.

Lemma toiletsToFilter_keys (f : App.FilterState) (ts : list Toilet) :
  NoDup (List.map t_id ts) -> NoDup (List.map t_id (App.toiletsToFilter f ts)).
Proof.
  intros Hnd. unfold App.toiletsToFilter.
  destruct (App.free f), (App.wheelchair f), (App.diaper f);
    repeat apply NoDup_map_filter; exact Hnd.
Qed.

(** X5. When the selected elements of a reply have pairwise distinct
    identifiers, the markers drawn on the map have pairwise distinct keys,
    whatever the filters and the bounds of the map are. *)
Theorem marker_keys_distinct (LatLngBounds : Type)
    (contains : LatLngBounds -> JS.number -> JS.number -> bool)
    (bounds : option LatLngBounds) (f : App.FilterState) fetch loc els :
  Spec.answers fetch loc (Some {| elements := Some els |}) ->
  NoDup (List.map el_id (Spec.selected_elements els)) ->
  ∃ ts, findToilets fetch loc = JS.Fulfilled ts
        ∧ NoDup (List.map t_id ts)
        ∧ NoDup (MapView.marker_keys LatLngBounds contains bounds
                   (App.toiletsToFilter f ts)).
Proof.
  intros Hans Hids. eexists. split; [apply findToilets_elements, Hans|].
  assert (Hkeys : NoDup (List.map t_id
            (List.map (toToilet (parentNameMap els)) (Spec.selected_elements els)))).
  { rewrite List.map_map. cbn [t_id toToilet].
    apply (NoDup_map_compose_inj el_id JS.toString); [apply toString_inj | exact Hids]. }
  split; [exact Hkeys|].
  unfold MapView.marker_keys, MapView.visibleToilets.
  destruct bounds as [b|]; [|constructor].
  apply NoDup_map_filter, toiletsToFilter_keys, Hkeys.
Qed.

Lemma marker_keys_distinct_witness :
  Spec.answers (Sample.serve_elements Sample.neighbourhood) Sample.home
    (Some {| elements := Some Sample.neighbourhood |})
  ∧ NoDup (List.map el_id (Spec.selected_elements Sample.neighbourhood))
  ∧ ∃ ts, findToilets (Sample.serve_elements Sample.neighbourhood) Sample.home
          = JS.Fulfilled ts
        ∧ NoDup (List.map t_id ts)
        ∧ NoDup (MapView.marker_keys unit (fun _ _ _ => true) (Some tt)
                   (App.toiletsToFilter Scenario.no_filters ts)).
Proof.
  assert (Hids : NoDup (List.map el_id (Spec.selected_elements Sample.neighbourhood))).
  { apply (bool_decide_unpack _). vm_compute. exact I. }
  split; [|split].
  - eexists. split; [reflexivity | split; reflexivity].
  - exact Hids.
  - apply (marker_keys_distinct unit (fun _ _ _ => true) (Some tt) Scenario.no_filters
             (Sample.serve_elements Sample.neighbourhood) Sample.home
             Sample.neighbourhood).
    + eexists. split; [reflexivity | split; reflexivity].
    + exact Hids.
Defined.

Lemma filter_filter_keep {A : Type} (p keep : A -> bool) (l : list A) :
  (∀ a, p a = true -> keep a = true) ->
  List.filter p (List.filter keep l) = List.filter p l.
Proof.
  intros Hkeep. induction l as [|a l IH]; simpl; [reflexivity|].
  destruct (keep a) eqn:Ha; simpl.
  - rewrite IH. reflexivity.
  - destruct (p a) eqn:Hp; [|exact IH].
    rewrite (Hkeep a Hp) in Ha. discriminate Ha.
Qed.

(** X6. Only the selected elements and the named ways of a reply matter:
    leaving any other element out of the reply does not change the
    records. *)
Theorem findToilets_ignores_other_elements fetch fetch' loc els keep :
  Spec.answers fetch loc (Some {| elements := Some els |}) ->
  Spec.answers fetch' loc (Some {| elements := Some (List.filter keep els) |}) ->
  (∀ e, Spec.selected e ∨ is_named_way e = true -> keep e = true) ->
  findToilets fetch' loc = findToilets fetch loc.
Proof.
  intros Hans Hans' Hkeep.
  rewrite (findToilets_elements fetch loc els Hans).
  rewrite (findToilets_elements fetch' loc _ Hans').
  unfold parentNameMap, Spec.selected_elements.
  rewrite !filter_filter_keep; [reflexivity | |].
  - intros e H. apply Hkeep. left. apply bool_decide_eq_true_1 in H. exact H.
  - intros e H. apply Hkeep. right. exact H.
Qed.

Lemma findToilets_ignores_other_elements_witness :
  Spec.answers (Sample.serve_elements Sample.neighbourhood) Sample.home
    (Some {| elements := Some Sample.neighbourhood |})
  ∧ Spec.answers
      (Sample.serve_elements
         (List.filter (fun e => is_toilet e || is_named_way e) Sample.neighbourhood))
      Sample.home
      (Some {| elements := Some
         (List.filter (fun e => is_toilet e || is_named_way e) Sample.neighbourhood) |})
  ∧ findToilets
      (Sample.serve_elements
         (List.filter (fun e => is_toilet e || is_named_way e) Sample.neighbourhood))
      Sample.home
    = findToilets (Sample.serve_elements Sample.neighbourhood) Sample.home.
Proof.
  split; [|split].
  - eexists. split; [reflexivity | split; reflexivity].
  - eexists. split; [reflexivity | split; reflexivity].
  - apply (findToilets_ignores_other_elements
             (Sample.serve_elements Sample.neighbourhood) _ Sample.home
             Sample.neighbourhood (fun e => is_toilet e || is_named_way e)).
    + eexists. split; [reflexivity | split; reflexivity].
    + eexists. split; [reflexivity | split; reflexivity].
    + intros e [H|H]; apply orb_true_iff.
      * left. rewrite is_toilet_selected. apply bool_decide_eq_true_2, H.
      * right. exact H.
Defined.

(** X7. The location of a record is the direct coordinate of an element
    without centroid, and the centroid of an element whose centroid
    coordinates are both truthy (neither zero nor NaN). *)
Theorem record_location fetch loc els :
  Spec.answers fetch loc (Some {| elements := Some els |}) ->
  ∃ ts, findToilets fetch loc = JS.Fulfilled ts
        ∧ Forall2 (fun e t =>
            (el_center e = None ->
             t_location t = {| lat := el_lat e; lng := el_lon e |})
            ∧ (∀ c, el_center e = Some c ->
                 JS.truthy_number (center_lat c) = true ->
                 JS.truthy_number (center_lon c) = true ->
                 t_location t = {| lat := center_lat c; lng := center_lon c |}))
            (Spec.selected_elements els) ts.
Proof.
  intros Hans. eexists. split; [apply findToilets_elements, Hans|].
  apply Forall2_map_each. intros e. rewrite toToilet_location. split.
  - intros ->. reflexivity.
  - intros c -> Hlat Hlon. rewrite Hlat, Hlon. reflexivity.
Qed.

Lemma record_location_witness :
  Spec.answers (Sample.serve_elements Sample.neighbourhood) Sample.home
    (Some {| elements := Some Sample.neighbourhood |})
  ∧ ∃ ts, findToilets (Sample.serve_elements Sample.neighbourhood) Sample.home
          = JS.Fulfilled ts
        ∧ Forall2 (fun e t =>
            (el_center e = None ->
             t_location t = {| lat := el_lat e; lng := el_lon e |})
            ∧ (∀ c, el_center e = Some c ->
                 JS.truthy_number (center_lat c) = true ->
                 JS.truthy_number (center_lon c) = true ->
                 t_location t = {| lat := center_lat c; lng := center_lon c |}))
            (Spec.selected_elements Sample.neighbourhood) ts.
Proof.
  split.
  - eexists. split; [reflexivity | split; reflexivity].
  - apply (record_location (Sample.serve_elements Sample.neighbourhood) Sample.home).
    eexists. split; [reflexivity | split; reflexivity].
Defined.

(* ===================================================================== *)
(** ** Further properties of [reverseGeocode] *)
(* ===================================================================== *)

(** The two shapes of an answer: the network-error text, or the tiered
    answer to some parsed reply. *)
Lemma reverseGeocode_cases fetch loc :
  reverseGeocode fetch loc = JS.Fulfilled "unknown location (network error)"
  ∨ ∃ d, reverseGeocode fetch loc = JS.Fulfilled (Spec.tiered_address d).
Proof.
  destruct (fetch loc) as [resp|e] eqn:Hfetch.
  - destruct (JS.ok resp) eqn:Hok.
    + destruct (JS.json resp) as [[d|]|e] eqn:Hjson.
      * right. exists d. apply reverseGeocode_parsed. exists resp. auto.
      * left. unfold reverseGeocode, reverseGeocode_try.
        rewrite Hfetch. simpl. rewrite Hok. simpl. rewrite Hjson. reflexivity.
      * left. unfold reverseGeocode, reverseGeocode_try.
        rewrite Hfetch. simpl. rewrite Hok. simpl. rewrite Hjson. reflexivity.
    + left. unfold reverseGeocode, reverseGeocode_try.
      rewrite Hfetch. simpl. rewrite Hok. reflexivity.
  - left. unfold reverseGeocode, reverseGeocode_try. rewrite Hfetch. reflexivity.
Qed.

Lemma tiered_address_no_capital (d : NominatimData) :
  Spec.no_ascii_capital (Spec.tiered_address d) = true.
Proof.
  unfold Spec.tiered_address, Spec.structured_assembly, Spec.assembled_address.
  destruct (address d) as [adr|].
  - destruct (Spec.address_tokens adr); [|apply toLowerCase_no_capital].
    destruct (Spec.non_empty (display_name d)); [apply toLowerCase_no_capital|].
    destruct (Spec.non_empty (error d)); [apply toLowerCase_no_capital | reflexivity].
  - destruct (Spec.non_empty (display_name d)); [apply toLowerCase_no_capital|].
    destruct (Spec.non_empty (error d)); [apply toLowerCase_no_capital | reflexivity].
Qed.

(** X8. Whatever the upstream service does, the string [reverseGeocode]
    returns holds no ASCII capital letter [A] to [Z]. *)
Theorem reverseGeocode_no_ascii_capital fetch loc :
  ∃ s, reverseGeocode fetch loc = JS.Fulfilled s ∧ Spec.no_ascii_capital s = true.
Proof.
  destruct (reverseGeocode_cases fetch loc) as [H|[d H]]; rewrite H.
  - eexists. split; reflexivity.
  - eexists. split; [reflexivity | apply tiered_address_no_capital].
Qed.

Lemma non_empty_not_empty (v : option string) (s : string) :
  Spec.non_empty v = Some s -> s ≠ "".
Proof. rewrite <- truthy_value_non_empty. apply truthy_value_not_empty. Qed.

Lemma omap_non_empty_head (vs : list (option string)) (p : string) (ps : list string) :
  omap Spec.non_empty vs = p :: ps -> p ≠ "".
Proof. rewrite <- omap_truthy_non_empty. apply omap_truthy_head. Qed.

(** The first token of a structured address is not empty. *)
Lemma address_tokens_head (adr : NominatimAddress) (tok : string) (toks : list string) :
  Spec.address_tokens adr = tok :: toks -> tok ≠ "".
Proof.
  unfold Spec.address_tokens.
  destruct (omap Spec.non_empty [house_number adr; road adr; suburb adr])
    as [|p ps] eqn:Hfront.
  - cbn [app].
    destruct (decide (Spec.city_is_singapore adr)).
    + destruct (Spec.non_empty (postcode adr)); intros [= <- _]; discriminate.
    + apply omap_non_empty_head.
  - cbn [app]. intros [= <- _]. exact (omap_non_empty_head _ p ps Hfront).
Qed.

Lemma tiered_address_not_empty (d : NominatimData) : Spec.tiered_address d ≠ "".
Proof.
  unfold Spec.tiered_address.
  destruct (Spec.structured_assembly d) as [s|] eqn:Hs.
  - unfold Spec.structured_assembly, Spec.assembled_address in Hs.
    destruct (address d) as [adr|]; [|discriminate Hs].
    destruct (Spec.address_tokens adr) as [|tok toks] eqn:Htok; [discriminate Hs|].
    injection Hs as <-. intros H%toLowerCase_empty. revert H.
    cbn [Spec.dedup_first].
    destruct (decide (tok ∈ (∅ : gset string))) as [Hin|_];
      [exfalso; exact (not_elem_of_empty tok Hin)|].
    apply join_not_empty. exact (address_tokens_head adr tok toks Htok).
  - destruct (Spec.non_empty (display_name d)) as [n|] eqn:Hn.
    + intros H%toLowerCase_empty. exact (non_empty_not_empty _ n Hn H).
    + destruct (Spec.non_empty (error d)); discriminate.
Qed.


Lemma dedup_first_spec (seen : gset string) (l : list string) :
  NoDup (Spec.dedup_first seen l)
  ∧ ∀ x, x ∈ Spec.dedup_first seen l ↔ x ∈ l ∧ x ∉ seen.
Proof.
  revert seen. induction l as [|y l IH]; intros seen; simpl.
  - split; [constructor|]. intros x. rewrite elem_of_nil. tauto.
  - destruct (decide (y ∈ seen)) as [Hy|Hy].
    + destruct (IH seen) as [Hnd Hmem]. split; [exact Hnd|].
      intros x. rewrite Hmem, elem_of_cons.
      split; [tauto|]. intros [[->|Hx] Hnot]; [contradiction | tauto].
    + destruct (IH ({[y]} ∪ seen)) as [Hnd Hmem]. split.
      * apply NoDup_cons. split; [|exact Hnd].
        rewrite Hmem, elem_of_union, elem_of_singleton. tauto.
      * intros x. rewrite !elem_of_cons, Hmem, elem_of_union, elem_of_singleton.
        destruct (decide (x = y)) as [->|Hne]; tauto.
Qed.

(** X10. The array [uniqueAddressParts] holds every part of [parts] once
    and nothing else. *)
Theorem uniqueAddressParts_distinct (adr : NominatimAddress) :
  NoDup (JS.Set_from (address_parts adr))
  ∧ ∀ x, x ∈ JS.Set_from (address_parts adr) ↔ x ∈ address_parts adr.
Proof.
  rewrite Set_from_dedup_first.
  destruct (dedup_first_spec ∅ (address_parts adr)) as [Hnd Hmem].
  split; [exact Hnd|].
  intros x. rewrite Hmem. split; [tauto|].
  intros Hx. split; [exact Hx | apply not_elem_of_empty].
Qed.

(* ===================================================================== *)
(** ** The filters of the application *)
(* ===================================================================== *)

Lemma filter_filter_and {A : Type} (p q : A -> bool) (l : list A) :
  List.filter q (List.filter p l) = List.filter (fun a => p a && q a) l.
Proof.
  induction l as [|a l IH]; simpl; [reflexivity|].
  destruct (p a); simpl; [|exact IH].
  destruct (q a); rewrite IH; reflexivity.
Qed.

Lemma filter_ext_bool {A : Type} (p q : A -> bool) (l : list A) :
  (∀ a, p a = q a) -> List.filter p l = List.filter q l.
Proof.
  intros Hpq. induction l as [|a l IH]; simpl; [reflexivity|].
  rewrite Hpq, IH. reflexivity.
Qed.

Lemma filter_true {A : Type} (l : list A) : List.filter (fun _ => true) l = l.
Proof. induction l as [|a l IH]; simpl; [|rewrite IH]; reflexivity. Qed.

Lemma filter_map_swap {A B : Type} (g : A -> B) (p : B -> bool) (l : list A) :
  List.filter p (List.map g l) = List.map g (List.filter (fun a => p (g a)) l).
Proof.
  induction l as [|a l IH]; simpl; [reflexivity|].
  destruct (p (g a)); simpl; rewrite IH; reflexivity.
Qed.

Lemma filter_sublist {A : Type} (p : A -> bool) (l : list A) :
  sublist (List.filter p l) l.
Proof.
  induction l as [|a l IH]; simpl; [constructor|].
  destruct (p a); [apply sublist_skip | apply sublist_cons]; exact IH.
Qed.

Lemma filter_sublist_imp {A : Type} (p q : A -> bool) (l : list A) :
  (∀ a, q a = true -> p a = true) ->
  sublist (List.filter q l) (List.filter p l).
Proof.
  intros Hqp. induction l as [|a l IH]; simpl; [constructor|].
  destruct (q a) eqn:Hq.
  - rewrite (Hqp a Hq). apply sublist_skip, IH.
  - destruct (p a); [apply sublist_cons|]; exact IH.
Qed.

Lemma conditional_filter (b : bool) (flag : Toilet -> bool) (l : list Toilet) :
  (if b then List.filter (fun t => Bool.eqb (flag t) true) l else l)
  = List.filter (fun t => implb b (flag t)) l.
Proof.
  destruct b; simpl.
  - apply filter_ext_bool. intros t. destruct (flag t); reflexivity.
  - symmetry. apply filter_true.
Qed.

(** The effect as three filters in a row. *)
Lemma toiletsToFilter_steps (f : App.FilterState) (ts : list Toilet) :
  App.toiletsToFilter f ts
  = List.filter (fun t => implb (App.diaper f) (t_diaper t))
      (List.filter (fun t => implb (App.wheelchair f) (t_wheelchair t))
         (List.filter (fun t => implb (App.free f) (t_fee t)) ts)).
Proof.
  unfold App.toiletsToFilter. cbv zeta.
  rewrite (conditional_filter (App.free f) t_fee).
  rewrite (conditional_filter (App.wheelchair f) t_wheelchair).
  rewrite (conditional_filter (App.diaper f) t_diaper).
  reflexivity.
Qed.

(** X11. The three filters act together as one: a toilet is kept exactly
    when it has every capability whose filter is switched on, and the
    order of the toilets is kept. *)
Theorem toiletsToFilter_conjunction (f : App.FilterState) (ts : list Toilet) :
  App.toiletsToFilter f ts
  = List.filter (fun t =>
      implb (App.free f) (t_fee t)
      && implb (App.wheelchair f) (t_wheelchair t)
      && implb (App.diaper f) (t_diaper t)) ts.
Proof.
  rewrite toiletsToFilter_steps, !filter_filter_and.
  apply filter_ext_bool. intros t. rewrite ?andb_assoc. reflexivity.
Qed.

(** X12. Switching a filter on never adds a toilet: the filtered list
    becomes a sub-list of what it was, so the count on the button does not
    grow. *)
Theorem switching_filter_on_only_removes (k : App.FilterName) (s : App.State) :
  App.enabled k (App.filters s) = false ->
  sublist (App.filteredToilets (App.filterEffect (App.handleFilterChange k s)))
          (App.filteredToilets (App.filterEffect s))
  ∧ (App.shown_count (App.filterEffect (App.handleFilterChange k s))
     <= App.shown_count (App.filterEffect s))%nat.
Proof.
  intros Hoff.
  assert (Hsub : sublist
            (App.filteredToilets (App.filterEffect (App.handleFilterChange k s)))
            (App.filteredToilets (App.filterEffect s))).
  { unfold App.filterEffect, App.handleFilterChange.
    cbn [App.filteredToilets App.setFilteredToilets App.filters App.setFilters
         App.toilets].
    rewrite !toiletsToFilter_steps, !filter_filter_and.
    apply filter_sublist_imp. intros t.
    destruct (App.filters s) as [fr wh di].
    destruct k; simpl in Hoff; subst; simpl;
      rewrite ?andb_true_iff; tauto. }
  split; [exact Hsub|].
  unfold App.shown_count. apply sublist_length, Hsub.
Qed.

(** With the two toilets of the neighbourhood on the map, switching the
    free filter on leaves the free public toilet and removes the station
    toilet. *)
Lemma switching_filter_on_only_removes_witness :
  App.enabled App.key_free (App.filters Scenario.searched) = false
  ∧ List.map t_name (App.filteredToilets (App.filterEffect Scenario.searched))
    = ["public toilet"; "central station toilet"]
  ∧ List.map t_name
      (App.filteredToilets
         (App.filterEffect (App.handleFilterChange App.key_free Scenario.searched)))
    = ["public toilet"]
  ∧ sublist
      (App.filteredToilets
         (App.filterEffect (App.handleFilterChange App.key_free Scenario.searched)))
      (App.filteredToilets (App.filterEffect Scenario.searched))
  ∧ (App.shown_count
       (App.filterEffect (App.handleFilterChange App.key_free Scenario.searched))
     <= App.shown_count (App.filterEffect Scenario.searched))%nat.
Proof.
  split; [|split; [|split]].
  - reflexivity.
  - vm_compute. reflexivity.
  - vm_compute. reflexivity.
  - apply (switching_filter_on_only_removes App.key_free Scenario.searched).
    reflexivity.
Defined.

Lemma toToilet_fee (pm : gmap Z string) (e : OverpassElement) :
  t_fee (toToilet pm e)
  = bool_decide (tag tag_fee e = Some "no" ∨ tag tag_fee e = Some "0").
Proof.
  unfold toToilet. cbn [t_fee]. rewrite !strict_eq_decide.
  repeat case_bool_decide; simpl; try reflexivity; exfalso; tauto.
Qed.

(** X13. After a successful search the list under the filters holds, in
    upstream order, the records of exactly those selected elements whose
    tags grant every capability that is switched on: fee "no" or "0" for
    the free filter, wheelchair "yes" and diaper "yes" for the other two. *)
Theorem shown_toilets_after_search fetch s loc els :
  App.location s = Some loc ->
  Spec.answers fetch loc (Some {| elements := Some els |}) ->
  App.filteredToilets (App.filterEffect (App.handleFindToilets fetch s).1)
  = List.map (toToilet (parentNameMap els))
      (List.filter (fun e =>
          bool_decide (Spec.selected e)
          && implb (App.free (App.filters s))
               (bool_decide (tag tag_fee e = Some "no" ∨ tag tag_fee e = Some "0"))
          && implb (App.wheelchair (App.filters s))
               (bool_decide (tag tag_wheelchair e = Some "yes"))
          && implb (App.diaper (App.filters s))
               (bool_decide (tag tag_diaper e = Some "yes"))) els).
Proof.
  intros Hloc Hans.
  unfold App.handleFindToilets. rewrite Hloc.
  cbn [App.location App.setIsFinding].
  rewrite (findToilets_elements fetch loc els Hans).
  unfold App.filterEffect.
  cbn [fst App.filteredToilets App.setFilteredToilets App.filters App.toilets
       App.setToilets App.setIsFinding].
  rewrite toiletsToFilter_steps, !filter_filter_and, filter_map_swap.
  unfold Spec.selected_elements. rewrite filter_filter_and.
  f_equal. apply filter_ext_bool. intros e.
  rewrite toToilet_fee. unfold toToilet. cbn [t_wheelchair t_diaper].
  rewrite !strict_eq_decide, ?andb_assoc. reflexivity.
Qed.

Lemma shown_toilets_after_search_witness :
  App.location (App.handleFilterChange App.key_free Scenario.located)
  = Some Sample.home
  ∧ Spec.answers (Sample.serve_elements Sample.neighbourhood) Sample.home
      (Some {| elements := Some Sample.neighbourhood |})
  ∧ List.map t_name
      (App.filteredToilets
         (App.filterEffect
            (App.handleFindToilets (Sample.serve_elements Sample.neighbourhood)
               (App.handleFilterChange App.key_free Scenario.located)).1))
    = ["public toilet"].
Proof.
  split; [|split].
  - reflexivity.
  - eexists. split; [reflexivity | split; reflexivity].
  - rewrite (shown_toilets_after_search
               (Sample.serve_elements Sample.neighbourhood)
               (App.handleFilterChange App.key_free Scenario.located)
               Sample.home Sample.neighbourhood).
    + vm_compute. reflexivity.
    + reflexivity.
    + eexists. split; [reflexivity | split; reflexivity].
Defined.

Lemma findToilets_rejected_message fetch loc e :
  findToilets fetch loc = JS.Rejected e ->
  e = {| JS.message := "failed to find nearby toilets from openstreetmap." |}.
Proof.
  unfold findToilets.
  destruct (findToilets_try (fetch loc)); [discriminate|].
  intros [= <-]. reflexivity.
Qed.

(** X14. When the search fails upstream, the user is shown the one alert
    "failed to find nearby toilets from openstreetmap."; the toilets found
    before stay as they are and the button is released. *)
Theorem handleFindToilets_on_failure fetch s loc :
  App.location s = Some loc ->
  Spec.UpstreamFailure (fetch loc) ->
  App.handleFindToilets fetch s
  = (App.setIsFinding false s,
     ["failed to find nearby toilets from openstreetmap."]).
Proof.
  intros Hloc Hfail.
  apply findToilets_rejected_on_failure in Hfail as [e He].
  unfold App.handleFindToilets. rewrite Hloc.
  cbn [App.location App.setIsFinding]. rewrite He.
  rewrite (findToilets_rejected_message fetch loc e He). reflexivity.
Qed.

Lemma handleFindToilets_on_failure_witness :
  App.location Scenario.located = Some Sample.home
  ∧ Spec.UpstreamFailure (Sample.server_error (A := option OverpassData) Sample.home)
  ∧ App.handleFindToilets Sample.server_error Scenario.located
    = (App.setIsFinding false Scenario.located,
       ["failed to find nearby toilets from openstreetmap."]).
Proof.
  split; [|split].
  - reflexivity.
  - apply Spec.non_success_response. reflexivity.
  - apply (handleFindToilets_on_failure Sample.server_error Scenario.located Sample.home).
    + reflexivity.
    + apply Spec.non_success_response. reflexivity.
Defined.

(** X15. When the search succeeds, the toilets of the application become
    the records of the selected elements, the button is released, and the
    user is told "no toilets found nearby." exactly when the reply has no
    selected element. *)
Theorem handleFindToilets_on_success fetch s loc els :
  App.location s = Some loc ->
  Spec.answers fetch loc (Some {| elements := Some els |}) ->
  App.handleFindToilets fetch s
  = (App.setIsFinding false
       (App.setToilets
          (List.map (toToilet (parentNameMap els)) (Spec.selected_elements els)) s),
     match Spec.selected_elements els with
     | [] => ["no toilets found nearby."]
     | _ :: _ => []
     end).
Proof.
  intros Hloc Hans.
  unfold App.handleFindToilets. rewrite Hloc.
  cbn [App.location App.setIsFinding].
  rewrite (findToilets_elements fetch loc els Hans).
  destruct (Spec.selected_elements els); reflexivity.
Qed.

Lemma handleFindToilets_on_success_witness :
  App.location Scenario.located = Some Sample.home
  ∧ Spec.answers (Sample.serve_elements Sample.neighbourhood) Sample.home
      (Some {| elements := Some Sample.neighbourhood |})
  ∧ App.handleFindToilets (Sample.serve_elements Sample.neighbourhood) Scenario.located
    = (App.setIsFinding false
         (App.setToilets
            (List.map (toToilet (parentNameMap Sample.neighbourhood))
               (Spec.selected_elements Sample.neighbourhood)) Scenario.located),
       match Spec.selected_elements Sample.neighbourhood with
       | [] => ["no toilets found nearby."]
       | _ :: _ => []
       end).
Proof.
  split; [|split].
  - reflexivity.
  - eexists. split; [reflexivity | split; reflexivity].
  - apply (handleFindToilets_on_success
             (Sample.serve_elements Sample.neighbourhood) Scenario.located Sample.home).
    + reflexivity.
    + eexists. split; [reflexivity | split; reflexivity].
Defined.

(** X16. Whatever happens, [handleFindToilets] raises at most one alert,
    and it is one of three fixed texts, so the fallback "an unexpected
    error occurred." is never shown; the location and the filters are left
    as they were, and no search stays marked as running. *)
Theorem handleFindToilets_alerts fetch s :
  (let alerts := (App.handleFindToilets fetch s).2 in
   alerts = []
   ∨ alerts = ["cannot find toilets without your location. please grant access and try again."]
   ∨ alerts = ["no toilets found nearby."]
   ∨ alerts = ["failed to find nearby toilets from openstreetmap."])
  ∧ App.location (App.handleFindToilets fetch s).1 = App.location s
  ∧ App.filters (App.handleFindToilets fetch s).1 = App.filters s
  ∧ (App.isFinding s = false -> App.isFinding (App.handleFindToilets fetch s).1 = false).
Proof.
  unfold App.handleFindToilets.
  destruct (App.location s) as [loc|] eqn:Hloc.
  - cbn [App.location App.setIsFinding].
    destruct (findToilets fetch loc) as [ts|e] eqn:Hfind.
    + cbn. rewrite Hloc. destruct ts; cbn; tauto.
    + rewrite (findToilets_rejected_message fetch loc e Hfind).
      cbn. rewrite Hloc. tauto.
  - cbn. rewrite Hloc. tauto.
Qed.


(* ===================================================================== *)
(** ** The popup of a toilet *)
(* ===================================================================== *)

(** What [reverseGeocode] returns: some string that is not empty. *)
Lemma reverseGeocode_answer fetch loc :
  ∃ a, reverseGeocode fetch loc = JS.Fulfilled a ∧ a ≠ "".
Proof.
  destruct (reverseGeocode_cases fetch loc) as [H|[d H]]; rewrite H.
  - eexists. split; [reflexivity | discriminate].
  - eexists. split; [reflexivity | apply tiered_address_not_empty].
Qed.

(** X18. When a popup opens, the address is looked up only if the record's
    address is "address not available"; the popup then holds the string
    [reverseGeocode] resolved (its own fallback "could not look up
    address" is never entered), and the loading flag is off again. With
    any other address nothing is looked up and nothing changes. *)
Theorem popup_address_after_effect fetch toilet :
  ∃ a, reverseGeocode fetch (t_location toilet) = JS.Fulfilled a
       ∧ MapView.fetchAddress fetch toilet (MapView.popup_opened toilet)
         = if String.eqb (t_address toilet) "address not available"
           then {| MapView.address := a; MapView.isLoading := false |}
           else MapView.popup_opened toilet.
Proof.
  destruct (reverseGeocode_answer fetch (t_location toilet)) as (a & Hres & _).
  exists a. split; [exact Hres|].
  unfold MapView.fetchAddress, MapView.popup_opened. cbn [MapView.address].
  destruct (String.eqb (t_address toilet) "address not available"); [|reflexivity].
  rewrite Hres. reflexivity.
Qed.



